(** * A Node-style [fs] facade over the Expo file-system service

    Shallow embedding of [src/fs.js].  The module is a thin adapter: every
    method normalises its arguments, issues one call to the host service
    ([expo-file-system], imported as [FileSystem]) and wraps a failure in a
    new [Error] carrying a templated message.

    The host service is not part of the repository.  It is a parameter of
    the whole development (record [Host]); theorems that depend on what the
    host does state the host contract they rely on as hypotheses, and are
    instantiated on the in-memory host [MemHost] defined below.

    Strings: a JavaScript string is modelled by [string] (a sequence of
    8-bit code units); [toUpperCase] is the ASCII restriction of
    [String.prototype.toUpperCase]. *)

From Stdlib Require Import ZArith String Ascii List.
From stdpp Require Import base option gmap strings list fin_maps.

Local Open Scope string_scope.
Local Open Scope Z_scope.

(** ** JavaScript values *)

Module Js.

(** Primitive values that cross the boundary with the host, and objects
    whose properties are such values. *)
Inductive value : Type :=
| VUndef
| VNull
| VBool (b : bool)
| VNum (n : Z)
| VStr (s : string).

(** A plain object used as a record of named properties. *)
Abbreviation obj := (gmap string value).

(** [o.k] / [o[k]]: a missing property reads as [undefined]. *)
Definition get (o : obj) (k : string) : value :=
  match o !! k with
  | Some v => v
  | None => VUndef
  end.

(** ToBoolean. *)
Definition truthy (v : value) : bool :=
  match v with
  | VUndef | VNull => false
  | VBool b => b
  | VNum n => negb (n =? 0)
  | VStr s => negb (String.eqb s "")
  end.

(** [a || b]. *)
Definition or (a b : value) : value := if truthy a then a else b.

(** [c.toUpperCase()] on one code unit (ASCII letters only). *)
Definition upperChar (c : ascii) : ascii :=
  let n := nat_of_ascii c in
  if (Nat.leb 97 n && Nat.leb n 122)%bool then ascii_of_nat (n - 32) else c.

(** [s.toUpperCase()]. *)
Fixpoint toUpperCase (s : string) : string :=
  match s with
  | EmptyString => EmptyString
  | String c r => String (upperChar c) (toUpperCase r)
  end.

(** An error object: [name] is the constructor's name, [message] the text. *)
Record error : Type := MkError { name : string; message : string }.

(** [new Error(msg)]. *)
Definition Error (msg : string) : error := {| name := "Error"; message := msg |}.

End Js.
Import Js.

(** ** Promises that have settled, and the async monad *)

(** The outcome of awaiting a promise. *)
Inductive outcome (A : Type) : Type :=
| Fulfilled (a : A)
| Rejected (e : error).
Arguments Fulfilled {A} a.
Arguments Rejected {A} e.

(** An [async] function over a host whose state has type [H]: awaiting it
    yields an outcome and the host state after the call. *)
Definition Async (H A : Type) : Type := H -> outcome A * H.

Definition ret {H A} (a : A) : Async H A := fun h => (Fulfilled a, h).
Definition throw {H A} (e : error) : Async H A := fun h => (Rejected e, h).

(** [const x = await m; k x] *)
Definition bind {H A B} (m : Async H A) (k : A -> Async H B) : Async H B :=
  fun h =>
    match m h with
    | (Fulfilled a, h') => k a h'
    | (Rejected e, h') => (Rejected e, h')
    end.

(** [try { m } catch (error) { handler error }] *)
Definition try_catch {H A} (m : Async H A) (handler : error -> Async H A) : Async H A :=
  fun h =>
    match m h with
    | (Fulfilled a, h') => (Fulfilled a, h')
    | (Rejected e, h') => handler e h'
    end.

Notation "'await' x <- m ; k" := (bind m (fun x => k))
  (at level 10, x name, m at level 100, k at level 200, only parsing).
Notation "'await_' m ; k" := (bind m (fun _ => k))
  (at level 10, m at level 100, k at level 200, only parsing).

(** ** The host file-system service *)

(** The primitives of [expo-file-system] that [fs.js] calls.  Option bags
    are the object literals the source passes; [None] is an omitted
    argument. *)
Record Host (H : Type) : Type := MkHost {
  EncodingType : obj;
  readAsStringAsync : string -> obj -> Async H string;
  writeAsStringAsync : string -> string -> obj -> Async H unit;
  deleteAsync : string -> Async H unit;
  getInfoAsync : string -> option obj -> Async H obj;
  moveAsync : obj -> Async H unit;
  copyAsync : obj -> Async H unit;
  makeDirectoryAsync : string -> obj -> Async H unit;
  readDirectoryAsync : string -> Async H (list string);
}.
Arguments EncodingType {H} _.
Arguments readAsStringAsync {H} _ _ _ _.
Arguments writeAsStringAsync {H} _ _ _ _ _.
Arguments deleteAsync {H} _ _ _.
Arguments getInfoAsync {H} _ _ _ _.
Arguments moveAsync {H} _ _ _.
Arguments copyAsync {H} _ _ _.
Arguments makeDirectoryAsync {H} _ _ _ _.
Arguments readDirectoryAsync {H} _ _ _.

(** ** The facade: the object literal [fs] of [src/fs.js] *)

(** The descriptor returned by [stat]: two closures over the host's info
    object and two copied properties. *)
Record Stats : Type := MkStats {
  isFile : unit -> value;
  isDirectory : unit -> value;
  size : value;
  modificationTime : value;
}.

Module fs.
Section Facade.
Context {H : Type} (FileSystem : Host H).

(** A default parameter value: [x = d] in a parameter list applies when the
    argument is omitted (undefined). *)
Definition defaulted {A} (d : A) (arg : option A) : A :=
  match arg with
  | Some a => a
  | None => d
  end.

(** [FileSystem.EncodingType[encoding.toUpperCase()] || FileSystem.EncodingType.UTF8],
    the expression that [readFile], [writeFile] and [readFileSync] each
    evaluate for their [encoding] option. *)
Definition encodingOption (encoding : string) : value :=
  Js.or (get (EncodingType FileSystem) (toUpperCase encoding))
        (get (EncodingType FileSystem) "UTF8").

Definition readFile (path : string) (encoding : option string) : Async H string :=
  let encoding := defaulted "utf8" encoding in
  try_catch
    (await content <- readAsStringAsync FileSystem path
                        {[ "encoding" := encodingOption encoding ]};
     ret content)
    (fun error =>
       throw (Error ("Failed to read file at " +:+ path +:+ ": " +:+ message error))).

Definition writeFile (path data : string) (encoding : option string) : Async H unit :=
  let encoding := defaulted "utf8" encoding in
  try_catch
    (writeAsStringAsync FileSystem path data
       {[ "encoding" := encodingOption encoding ]})
    (fun error =>
       throw (Error ("Failed to write file at " +:+ path +:+ ": " +:+ message error))).

Definition appendFile (path data : string) : Async H unit :=
  try_catch
    (await existingData <- readFile path None;
     writeFile path (existingData +:+ data) None)
    (fun error =>
       throw (Error ("Failed to append file at " +:+ path +:+ ": " +:+ message error))).

Definition unlink (path : string) : Async H unit :=
  try_catch
    (deleteAsync FileSystem path)
    (fun error =>
       throw (Error ("Failed to delete file at " +:+ path +:+ ": " +:+ message error))).

Definition exists_ (path : string) : Async H value :=
  try_catch
    (await info <- getInfoAsync FileSystem path None;
     ret (get info "exists"))
    (fun _ => ret (VBool false)).

Definition rename (oldPath newPath : string) : Async H unit :=
  try_catch
    (moveAsync FileSystem {[ "from" := VStr oldPath; "to" := VStr newPath ]})
    (fun error =>
       throw (Error ("Failed to rename file from " +:+ oldPath +:+ " to " +:+ newPath
                     +:+ ": " +:+ message error))).

Definition mkdir (path : string) (options : option obj) : Async H unit :=
  let options := defaulted {[ "recursive" := VBool true ]} options in
  try_catch
    (makeDirectoryAsync FileSystem path
       {[ "intermediates" := get options "recursive" ]})
    (fun error =>
       throw (Error ("Failed to create directory at " +:+ path +:+ ": " +:+ message error))).

Definition readdir (path : string) : Async H (list string) :=
  try_catch
    (await contents <- readDirectoryAsync FileSystem path;
     ret contents)
    (fun error =>
       throw (Error ("Failed to read directory at " +:+ path +:+ ": " +:+ message error))).

Definition stat (path : string) : Async H Stats :=
  try_catch
    (await info <- getInfoAsync FileSystem path (Some {[ "size" := VBool true ]});
     ret {| isFile := fun _ => get info "isFile";
            isDirectory := fun _ => get info "isDirectory";
            size := get info "size";
            modificationTime := get info "modificationTime" |})
    (fun error =>
       throw (Error ("Failed to retrieve stats for " +:+ path +:+ ": " +:+ message error))).

Definition copyFile (srcPath destPath : string) : Async H unit :=
  try_catch
    (copyAsync FileSystem {[ "from" := VStr srcPath; "to" := VStr destPath ]})
    (fun error =>
       throw (Error ("Failed to copy file from " +:+ srcPath +:+ " to " +:+ destPath
                     +:+ ": " +:+ message error))).

End Facade.
End fs.

(** ** Promises and the job queue

    [existsSync] and [readFileSync] do not await: they attach reactions to
    the host's promise and return.  Their behaviour depends on when a
    reaction runs, so they are modelled on a small machine with a promise
    table, a queue of reaction jobs and the host requests still in
    flight.  A reaction never runs inside the call that registers it: it
    is queued when its promise settles (or at once, as a job, if the
    promise has already settled) and runs when the machine is stepped. *)

Module Loop.

(** What a promise is fulfilled with: the host's results, or the
    [undefined] a reaction callback returns. *)
Inductive pvalue : Type :=
| PUndef
| PStr (s : string)
| PObj (o : obj).

Inductive settled : Type :=
| SFul (v : pvalue)
| SRej (e : error).

(** Completion of a function body: [return v] or [throw e]. *)
Inductive completion (A : Type) : Type :=
| Return (a : A)
| Throw (e : error).
Arguments Return {A} a.
Arguments Throw {A} e.

(** The [let] variables that the callbacks close over. *)
Abbreviation Store := (gmap nat value).

(** A callback: an arrow function over the captured variables. *)
Definition Callback (A : Type) : Type := A -> Store -> completion pvalue * Store.

(** One [.then(onFulfilled, onRejected)] registration and the promise it
    returned. *)
Record Reaction : Type := MkReaction {
  onFulfilled : option (Callback pvalue);
  onRejected : option (Callback error);
  derived : nat;
}.

Inductive pstate : Type :=
| Pending (reactions : list Reaction)
| Settled (s : settled) (handled : bool).

Record Machine (H : Type) : Type := MkMachine {
  settlesEarly : bool;
  hostState : H;
  store : Store;
  nextVar : nat;
  promises : list pstate;
  jobs : list (Reaction * settled);
  inflight : list (nat * (H -> settled * H));
}.
Arguments MkMachine {H} _ _ _ _ _ _ _.
Arguments settlesEarly {H} _.
Arguments hostState {H} _.
Arguments store {H} _.
Arguments nextVar {H} _.
Arguments promises {H} _.
Arguments jobs {H} _.
Arguments inflight {H} _.

Section Machine.
Context {H : Type}.

(** A machine with nothing pending.  [early] says whether the host hands
    out promises that are settled already when its call returns. *)
Definition boot (early : bool) (h : H) : Machine H :=
  MkMachine early h ∅ 0%nat [] [] [].

(** [let x = v;] *)
Definition letVar (v : value) (m : Machine H) : nat * Machine H :=
  (nextVar m,
   MkMachine (settlesEarly m) (hostState m) (<[nextVar m := v]> (store m)) (S (nextVar m))
             (promises m) (jobs m) (inflight m)).

(** Reading a variable. *)
Definition readVar (x : nat) (m : Machine H) : value :=
  match store m !! x with
  | Some v => v
  | None => VUndef
  end.

Definition newPromise (m : Machine H) : nat * Machine H :=
  (length (promises m),
   MkMachine (settlesEarly m) (hostState m) (store m) (nextVar m)
             (promises m ++ [Pending []]) (jobs m) (inflight m)).

(** Calling an asynchronous host primitive: the request is issued and a
    promise is returned.  The promise is pending and the host answers
    later (a turn of [step]), or, on a host that settles early, it
    is settled already; either way no reaction has run. *)
Definition hostCall {A} (request : Async H A) (inj : A -> pvalue)
    (m : Machine H) : nat * Machine H :=
  let answer h :=
    match request h with
    | (Fulfilled a, h') => (SFul (inj a), h')
    | (Rejected e, h') => (SRej e, h')
    end in
  if settlesEarly m
  then
    let '(s, h') := answer (hostState m) in
    (length (promises m),
     MkMachine (settlesEarly m) h' (store m) (nextVar m)
               (promises m ++ [Settled s false]) (jobs m) (inflight m))
  else
    let '(p, m) := newPromise m in
    (p, MkMachine (settlesEarly m) (hostState m) (store m) (nextVar m) (promises m)
                  (jobs m) (inflight m ++ [(p, answer)])).

(** [p.then(onFul, onRej)]: returns the derived promise.  On a pending
    promise the reaction is stored; on a settled one a job is queued.  In
    neither case does a callback run here. *)
Definition then_ (p : nat) (onFul : option (Callback pvalue))
    (onRej : option (Callback error)) (m : Machine H) : nat * Machine H :=
  let '(d, m) := newPromise m in
  let r := MkReaction onFul onRej d in
  match promises m !! p with
  | Some (Pending rs) =>
      (d, MkMachine (settlesEarly m) (hostState m) (store m) (nextVar m)
                    (<[p := Pending (rs ++ [r])]> (promises m))
                    (jobs m) (inflight m))
  | Some (Settled s _) =>
      (d, MkMachine (settlesEarly m) (hostState m) (store m) (nextVar m)
                    (<[p := Settled s true]> (promises m))
                    (jobs m ++ [(r, s)]) (inflight m))
  | None => (d, m)
  end.

(** [p.catch(onRej)] is [p.then(undefined, onRej)]. *)
Definition catch_ (p : nat) (onRej : Callback error) (m : Machine H) : nat * Machine H :=
  then_ p None (Some onRej) m.

(** Settling a pending promise queues one job per stored reaction. *)
Definition settle (p : nat) (s : settled) (m : Machine H) : Machine H :=
  match promises m !! p with
  | Some (Pending rs) =>
      MkMachine (settlesEarly m) (hostState m) (store m) (nextVar m)
                (<[p := Settled s (match rs with [] => false | _ => true end)]>
                   (promises m))
                (jobs m ++ map (fun r => (r, s)) rs) (inflight m)
  | _ => m
  end.

Definition settleWith (p : nat) (c : completion pvalue) (m : Machine H) : Machine H :=
  match c with
  | Return v => settle p (SFul v) m
  | Throw e => settle p (SRej e) m
  end.

Definition setStore (st : Store) (m : Machine H) : Machine H :=
  MkMachine (settlesEarly m) (hostState m) st (nextVar m) (promises m) (jobs m) (inflight m).

(** Running one reaction job: the callback's completion settles the
    derived promise; without a callback the settlement passes through. *)
Definition runJob (j : Reaction * settled) (m : Machine H) : Machine H :=
  let '(r, s) := j in
  match s with
  | SFul v =>
      match onFulfilled r with
      | Some cb => let '(c, st) := cb v (store m) in settleWith (derived r) c (setStore st m)
      | None => settle (derived r) (SFul v) m
      end
  | SRej e =>
      match onRejected r with
      | Some cb => let '(c, st) := cb e (store m) in settleWith (derived r) c (setStore st m)
      | None => settle (derived r) (SRej e) m
      end
  end.

(** One turn of the loop: a queued job if there is one, otherwise the
    answer of the oldest host request; [None] when nothing is left. *)
Definition step (m : Machine H) : option (Machine H) :=
  match jobs m with
  | j :: js =>
      Some (runJob j (MkMachine (settlesEarly m) (hostState m) (store m) (nextVar m) (promises m)
                                js (inflight m)))
  | [] =>
      match inflight m with
      | (p, answer) :: rest =>
          let '(s, h) := answer (hostState m) in
          Some (settle p s (MkMachine (settlesEarly m) h (store m) (nextVar m) (promises m) [] rest))
      | [] => None
      end
  end.

Fixpoint runLoop (fuel : nat) (m : Machine H) : Machine H :=
  match fuel with
  | O => m
  | S fuel' =>
      match step m with
      | Some m' => runLoop fuel' m'
      | None => m
      end
  end.

(** Rejections that no reaction ever handled. *)
Definition unhandledRejections (m : Machine H) : list error :=
  omap (fun ps => match ps with
                  | Settled (SRej e) false => Some e
                  | _ => None
                  end)
       (promises m).

End Machine.

(** The two methods.  A call of a host primitive hands back a promise and
    does not throw; the callbacks are the arrow functions of the source,
    given the value the promise settles with ([getInfoAsync] fulfils with
    an object, [readAsStringAsync] with a string). *)
Section SyncFacade.
Context {H : Type} (FileSystem : Host H).

Definition TypeError (msg : string) : error := {| name := "TypeError"; message := msg |}.

Definition existsSync (path : string) (m : Machine H) : completion value * Machine H :=
  let '(exists_, m) := letVar (VBool false) m in
  let '(p, m) := hostCall (getInfoAsync FileSystem path None) PObj m in
  let '(p1, m) :=
    then_ p
      (Some (fun info st =>
               match info with
               | PObj info => (Return PUndef, <[exists_ := get info "exists"]> st)
               | PStr _ => (Return PUndef, <[exists_ := VUndef]> st)
               | PUndef => (Throw (TypeError "info is undefined"), st)
               end))
      None m in
  let '(_, m) :=
    catch_ p1 (fun _ st => (Return PUndef, <[exists_ := VBool false]> st)) m in
  (Return (readVar exists_ m), m).

Definition readFileSync (path : string) (encoding : option string)
    (m : Machine H) : completion value * Machine H :=
  let encoding := fs.defaulted "utf8" encoding in
  let '(content, m) := letVar (VStr "") m in
  let '(p, m) :=
    hostCall (readAsStringAsync FileSystem path
                {[ "encoding" := fs.encodingOption FileSystem encoding ]}) PStr m in
  let '(p1, m) :=
    then_ p
      (Some (fun data st =>
               match data with
               | PStr data => (Return PUndef, <[content := VStr data]> st)
               | PObj _ | PUndef => (Return PUndef, <[content := VUndef]> st)
               end))
      None m in
  let '(_, m) :=
    catch_ p1
      (fun error st =>
         (Throw (Error ("Failed to read file at " +:+ path +:+ ": " +:+ message error)),
          st)) m in
  (Return (readVar content m), m).

End SyncFacade.
End Loop.

(** ** Two hosts

    [MemHost] is an in-memory file system that answers the eight
    primitives; it is the host on which the contracts assumed below are
    shown to be satisfiable.  Its info objects have the properties
    [expo-file-system] documents for [getInfoAsync]: [exists], [uri],
    [isDirectory] and, for what exists, [modificationTime] and [size].  [TraceHost] records the calls it receives
    and answers all of them the same way; it shows what the facade sends. *)

Module MemHost.

Inductive node : Type :=
| File (content : string) (mtime : Z)
| Dir (mtime : Z).

Record Mem : Type := MkMem { nodes : gmap string node; clock : Z }.

Definition empty : Mem := MkMem ∅ 0.

Fixpoint dirname_go (p : string) : option string :=
  match p with
  | EmptyString => None
  | String c r =>
      match dirname_go r with
      | Some d => Some (String c d)
      | None => if Ascii.eqb c "/"%char then Some EmptyString else None
      end
  end.

(** The path without its last segment; the root is the empty path. *)
Definition dirname (p : string) : string :=
  match dirname_go p with
  | Some d => d
  | None => ""
  end.

Fixpoint ancestors (fuel : nat) (p : string) : list string :=
  match fuel with
  | O => []
  | S fuel' =>
      let d := dirname p in
      if bool_decide (d = "") then [] else d :: ancestors fuel' d
  end.

Definition isDir (m : Mem) (p : string) : bool :=
  bool_decide (p = "") ||
  match nodes m !! p with
  | Some (Dir _) => true
  | _ => false
  end.

Definition isFileNode (m : Mem) (p : string) : bool :=
  match nodes m !! p with
  | Some (File _ _) => true
  | _ => false
  end.

Definition hostError (msg : string) : error := {| name := "HostError"; message := msg |}.

Definition put (p : string) (n : node) (m : Mem) : Mem :=
  MkMem (<[p := n]> (nodes m)) (clock m + 1).

Definition read (p : string) (_ : obj) : Async Mem string :=
  fun m =>
    match nodes m !! p with
    | Some (File c _) => (Fulfilled c, m)
    | Some (Dir _) => (Rejected (hostError (p +:+ " is a directory")), m)
    | None => (Rejected (hostError (p +:+ " does not exist")), m)
    end.

Definition write (p data : string) (_ : obj) : Async Mem unit :=
  fun m =>
    match nodes m !! p with
    | Some (Dir _) => (Rejected (hostError (p +:+ " is a directory")), m)
    | Some (File _ _) => (Fulfilled tt, put p (File data (clock m)) m)
    | None =>
        if isDir m (dirname p)
        then (Fulfilled tt, put p (File data (clock m)) m)
        else (Rejected (hostError ("directory " +:+ dirname p +:+ " does not exist")), m)
    end.

Definition delete_ (p : string) : Async Mem unit :=
  fun m =>
    match nodes m !! p with
    | Some _ => (Fulfilled tt, MkMem (delete p (nodes m)) (clock m + 1))
    | None => (Rejected (hostError (p +:+ " does not exist")), m)
    end.

Definition getInfo (p : string) (options : option obj) : Async Mem obj :=
  fun m =>
    let wantSize :=
      match options with
      | Some o => truthy (get o "size")
      | None => false
      end in
    match nodes m !! p with
    | Some (File c t) =>
        let info : obj :=
          {[ "exists" := VBool true; "uri" := VStr p;
             "isDirectory" := VBool false; "modificationTime" := VNum t ]} in
        (Fulfilled (if wantSize
                    then <["size" := VNum (Z.of_nat (String.length c))]> info
                    else info), m)
    | Some (Dir t) =>
        (Fulfilled {[ "exists" := VBool true; "uri" := VStr p;
                      "isDirectory" := VBool true; "modificationTime" := VNum t ]}, m)
    | None =>
        (Fulfilled {[ "exists" := VBool false; "uri" := VStr p;
                      "isDirectory" := VBool false ]}, m)
    end.

Definition transfer (keepSource : bool) (o : obj) : Async Mem unit :=
  fun m =>
    match get o "from", get o "to" with
    | VStr src, VStr dst =>
        match nodes m !! src, nodes m !! dst with
        | Some n, None =>
            if isDir m (dirname dst)
            then (Fulfilled tt,
                  MkMem (<[dst := n]> (if keepSource then nodes m else delete src (nodes m)))
                        (clock m + 1))
            else (Rejected (hostError ("directory " +:+ dirname dst +:+ " does not exist")), m)
        | Some _, Some _ => (Rejected (hostError (dst +:+ " already exists")), m)
        | None, _ => (Rejected (hostError (src +:+ " does not exist")), m)
        end
    | _, _ => (Rejected (hostError "from and to must be strings"), m)
    end.

Definition makeDirectory (p : string) (options : obj) : Async Mem unit :=
  fun m =>
    match nodes m !! p with
    | Some _ => (Rejected (hostError (p +:+ " already exists")), m)
    | None =>
        if truthy (get options "intermediates")
        then
          let up := ancestors (String.length p) p in
          if existsb (isFileNode m) up
          then (Rejected (hostError (p +:+ " has a file among its ancestors")), m)
          else (Fulfilled tt,
                MkMem (<[p := Dir (clock m)]>
                         (foldr (fun a ns => match ns !! a with
                                             | None => <[a := Dir (clock m)]> ns
                                             | Some _ => ns
                                             end) (nodes m) up))
                      (clock m + 1))
        else
          if isDir m (dirname p)
          then (Fulfilled tt, put p (Dir (clock m)) m)
          else (Rejected (hostError ("directory " +:+ dirname p +:+ " does not exist")), m)
    end.

(** The step of [makeDirectory]'s fold: a directory where nothing is. *)
Definition addDir (t : Z) (a : string) (ns : gmap string node) : gmap string node :=
  match ns !! a with
  | None => <[a := Dir t]> ns
  | Some _ => ns
  end.

Definition basename (p : string) : string :=
  let d := String.length (dirname p) in
  String.substring (S d) (String.length p - S d) p.

Definition readDirectory (p : string) : Async Mem (list string) :=
  fun m =>
    if isDir m p
    then (Fulfilled (omap (fun kv => if bool_decide (dirname (fst kv) = p)
                                     then Some (basename (fst kv)) else None)
                          (map_to_list (nodes m))), m)
    else (Rejected (hostError (p +:+ " is not a directory")), m).

(** [p] is absent and so is its parent directory, and no file is in the
    way of the directories that lead to it. *)
Definition missingIntermediates (p : string) (m : Mem) : bool :=
  bool_decide (nodes m !! p = None) &&
  negb (isDir m (dirname p)) &&
  negb (existsb (isFileNode m) (ancestors (String.length p) p)).

Definition host : Host Mem :=
  {| EncodingType := {[ "UTF8" := VStr "utf8"; "Base64" := VStr "base64" ]};
     readAsStringAsync := read;
     writeAsStringAsync := write;
     deleteAsync := delete_;
     getInfoAsync := getInfo;
     moveAsync := transfer false;
     copyAsync := transfer true;
     makeDirectoryAsync := makeDirectory;
     readDirectoryAsync := readDirectory |}.

End MemHost.

Module TraceHost.

Inductive call : Type :=
| ReadAsString (path : string) (options : obj)
| WriteAsString (path data : string) (options : obj)
| Delete (path : string)
| GetInfo (path : string) (options : option obj)
| Move (options : obj)
| Copy (options : obj)
| MakeDirectory (path : string) (options : obj)
| ReadDirectory (path : string).

(** Log the call; reject with [failure] if there is one, else fulfil. *)
Definition answer {A} (failure : option error) (c : call) (a : A) : Async (list call) A :=
  fun log =>
    match failure with
    | Some e => (Rejected e, (log ++ [c])%list)
    | None => (Fulfilled a, (log ++ [c])%list)
    end.

Definition host (failure : option error) : Host (list call) :=
  {| EncodingType := {[ "UTF8" := VStr "utf8"; "Base64" := VStr "base64" ]};
     readAsStringAsync := fun p o => answer failure (ReadAsString p o) "";
     writeAsStringAsync := fun p d o => answer failure (WriteAsString p d o) tt;
     deleteAsync := fun p => answer failure (Delete p) tt;
     getInfoAsync := fun p o => answer failure (GetInfo p o) ∅;
     moveAsync := fun o => answer failure (Move o) tt;
     copyAsync := fun o => answer failure (Copy o) tt;
     makeDirectoryAsync := fun p o => answer failure (MakeDirectory p o) tt;
     readDirectoryAsync := fun p => answer failure (ReadDirectory p) [] |}.

End TraceHost.

(** The intermediate segments of a path: its proper prefixes that end
    before a [/], nearest first; [/a/b/c] has [/a/b] and [/a]. *)
Definition intermediateSegments (path : string) : list string :=
  MemHost.ancestors (String.length path) path.

(** ** The nine operations that can fail, as data *)

(** A call of one of the asynchronous methods that wrap a host failure
    ([exists] is left out: it never fails). *)
Inductive operation : Type :=
| OpReadFile (path : string) (encoding : option string)
| OpWriteFile (path data : string) (encoding : option string)
| OpAppendFile (path data : string)
| OpUnlink (path : string)
| OpRename (oldPath newPath : string)
| OpMkdir (path : string) (options : option obj)
| OpReaddir (path : string)
| OpStat (path : string)
| OpCopyFile (srcPath destPath : string).

Section Invoke.
Context {H : Type} (FileSystem : Host H).

(** Forget the result of a call, keep whether it failed and how. *)
Definition settle_only {A} (m : Async H A) : Async H unit :=
  fun h =>
    match m h with
    | (Fulfilled _, h') => (Fulfilled tt, h')
    | (Rejected e, h') => (Rejected e, h')
    end.

Definition invoke (op : operation) : Async H unit :=
  match op with
  | OpReadFile p enc => settle_only (fs.readFile FileSystem p enc)
  | OpWriteFile p d enc => fs.writeFile FileSystem p d enc
  | OpAppendFile p d => fs.appendFile FileSystem p d
  | OpUnlink p => fs.unlink FileSystem p
  | OpRename a b => fs.rename FileSystem a b
  | OpMkdir p o => fs.mkdir FileSystem p o
  | OpReaddir p => settle_only (fs.readdir FileSystem p)
  | OpStat p => settle_only (fs.stat FileSystem p)
  | OpCopyFile a b => fs.copyFile FileSystem a b
  end.

Definition rejection {A} (r : outcome A * H) : option error :=
  match r with
  | (Rejected e, _) => Some e
  | (Fulfilled _, _) => None
  end.

(** The host error, if any, that a call of the operation runs into: the
    rejection of the host primitive the method awaits (for [appendFile],
    of the read, or else of the write that follows it). *)
Definition hostFailure (op : operation) (h : H) : option error :=
  let utf8 : obj := {[ "encoding" := fs.encodingOption FileSystem "utf8" ]} in
  match op with
  | OpReadFile p enc =>
      rejection (readAsStringAsync FileSystem p
                   {[ "encoding" := fs.encodingOption FileSystem (fs.defaulted "utf8" enc) ]} h)
  | OpWriteFile p d enc =>
      rejection (writeAsStringAsync FileSystem p d
                   {[ "encoding" := fs.encodingOption FileSystem (fs.defaulted "utf8" enc) ]} h)
  | OpAppendFile p d =>
      match readAsStringAsync FileSystem p utf8 h with
      | (Rejected e, _) => Some e
      | (Fulfilled existing, h') =>
          rejection (writeAsStringAsync FileSystem p (existing +:+ d) utf8 h')
      end
  | OpUnlink p => rejection (deleteAsync FileSystem p h)
  | OpRename a b => rejection (moveAsync FileSystem {[ "from" := VStr a; "to" := VStr b ]} h)
  | OpMkdir p o =>
      rejection (makeDirectoryAsync FileSystem p
                   {[ "intermediates" :=
                        get (fs.defaulted {[ "recursive" := VBool true ]} o) "recursive" ]} h)
  | OpReaddir p => rejection (readDirectoryAsync FileSystem p h)
  | OpStat p => rejection (getInfoAsync FileSystem p (Some {[ "size" := VBool true ]}) h)
  | OpCopyFile a b => rejection (copyAsync FileSystem {[ "from" := VStr a; "to" := VStr b ]} h)
  end.

End Invoke.

(** ** The specification's vocabulary *)

(** The error kind the specification names for each operation. *)
Definition specErrorKind (op : operation) : string :=
  match op with
  | OpReadFile _ _ => "FileReadError"
  | OpWriteFile _ _ _ => "FileWriteError"
  | OpAppendFile _ _ => "FileAppendError"
  | OpUnlink _ => "FileDeleteError"
  | OpRename _ _ => "FileRenameError"
  | OpMkdir _ _ => "DirectoryCreateError"
  | OpReaddir _ => "DirectoryReadError"
  | OpStat _ => "StatError"
  | OpCopyFile _ _ => "FileCopyError"
  end.

(** The [<path>[ to <path>]] part of a message for the operation. *)
Definition pathPart (op : operation) : string :=
  match op with
  | OpReadFile p _ | OpWriteFile p _ _ | OpAppendFile p _ | OpUnlink p
  | OpMkdir p _ | OpReaddir p | OpStat p => p
  | OpRename a b | OpCopyFile a b => a +:+ " to " +:+ b
  end.

(** A non-empty word without a space. *)
Fixpoint spaceFree (s : string) : bool :=
  match s with
  | EmptyString => true
  | String c r => negb (Ascii.eqb c " "%char) && spaceFree r
  end.

Definition isWord (s : string) : bool :=
  match s with
  | EmptyString => false
  | String _ _ => spaceFree s
  end.

(** [embeds inner outer]: [outer] ends with the text [inner]. *)
Definition embeds (inner outer : string) : Prop :=
  exists before, outer = before +:+ inner.

(** The message pattern of the specification,
    [Failed to <verb> <noun> <prep> <path>[ to <path>]: <underlying message>],
    with the preposition taken from [preps] and the host's message
    [hostMessage] embedded in the underlying message. *)
Definition followsPattern (preps : list string) (op : operation)
    (hostMessage msg : string) : Prop :=
  exists verb noun prep underlying,
    isWord verb = true /\ isWord noun = true /\ In prep preps /\
    msg = "Failed to " +:+ verb +:+ " " +:+ noun +:+ " " +:+ prep +:+ " "
          +:+ pathPart op +:+ ": " +:+ underlying /\
    embeds hostMessage underlying.

(** The text each method puts in front of the underlying message. *)
Definition template (op : operation) : string :=
  match op with
  | OpReadFile p _ => "Failed to read file at " +:+ p
  | OpWriteFile p _ _ => "Failed to write file at " +:+ p
  | OpAppendFile p _ => "Failed to append file at " +:+ p
  | OpUnlink p => "Failed to delete file at " +:+ p
  | OpRename a b => "Failed to rename file from " +:+ a +:+ " to " +:+ b
  | OpMkdir p _ => "Failed to create directory at " +:+ p
  | OpReaddir p => "Failed to read directory at " +:+ p
  | OpStat p => "Failed to retrieve stats for " +:+ p
  | OpCopyFile a b => "Failed to copy file from " +:+ a +:+ " to " +:+ b
  end.

(** The prepositions that introduce the path in the messages of an
    operation. *)
Definition prepositions (op : operation) : list string :=
  match op with
  | OpStat _ => ["for"]
  | _ => ["at"; "from"]
  end.

(** Case folding the other way, to say when two names differ only in case. *)
Definition lowerChar (c : ascii) : ascii :=
  let n := nat_of_ascii c in
  if (Nat.leb 65 n && Nat.leb n 90)%bool then ascii_of_nat (n + 32) else c.

Fixpoint toLowerCase (s : string) : string :=
  match s with
  | EmptyString => EmptyString
  | String c r => String (lowerChar c) (toLowerCase r)
  end.

Definition sameUpToCase (a b : string) : Prop := toLowerCase a = toLowerCase b.

(** An encoding name is recognised when its upper-cased form is a key of
    the host's table with a usable value. *)
Definition recognised {H} (FileSystem : Host H) (encoding : string) : bool :=
  truthy (get (EncodingType FileSystem) (toUpperCase encoding)).

(** ** What the facade needs from the host

    The facade stores nothing itself.  The laws of the specification that
    speak of file contents, sizes and directories hold of the facade on
    every host that keeps the following contracts. *)

Section Contracts.
Context {H : Type} (FileSystem : Host H).

(** Reading a file leaves the host as it was. *)
Definition ReadIsPure : Prop :=
  forall path options h, snd (readAsStringAsync FileSystem path options h) = h.

(** After a write succeeded under an encoding the host supports, a read
    under the same encoding gives the data back. *)
Definition ReadsBackWrites (supported : value -> Prop) : Prop :=
  forall path data encoding h h',
    supported encoding ->
    writeAsStringAsync FileSystem path data {[ "encoding" := encoding ]} h
      = (Fulfilled tt, h') ->
    fst (readAsStringAsync FileSystem path {[ "encoding" := encoding ]} h')
      = Fulfilled data.

(** A file that can be read can be overwritten. *)
Definition OverwriteSucceeds : Prop :=
  forall path data options h existing,
    fst (readAsStringAsync FileSystem path options h) = Fulfilled existing ->
    exists h', writeAsStringAsync FileSystem path data options h = (Fulfilled tt, h').

(** What the host's info says of a path: that nothing is there, or that
    a directory is there (whatever options the info is asked with). *)
Definition reportsAbsent (path : string) (h : H) : Prop :=
  exists info h',
    getInfoAsync FileSystem path None h = (Fulfilled info, h') /\
    get info "exists" = VBool false.

Definition reportsDirectory (path : string) (h : H) : Prop :=
  forall options, exists info h',
    getInfoAsync FileSystem path options h = (Fulfilled info, h') /\
    get info "exists" = VBool true /\
    get info "isDirectory" = VBool true.

(** Intermediate segments of [path] do not exist yet: nothing is at
    [path], nothing is at its nearest intermediate segment, and each of
    the others is a directory or absent. *)
Definition missingIntermediatesAt (path : string) (h : H) : Prop :=
  reportsAbsent path h /\
  (exists parent others,
     intermediateSegments path = parent :: others /\ reportsAbsent parent h) /\
  (forall q, In q (intermediateSegments path) -> reportsAbsent q h \/ reportsDirectory q h).

(** Where intermediate segments of a path are missing, a directory
    creation with [intermediates: true] succeeds and leaves a directory at
    the path and at each of its intermediate segments, and one with
    [intermediates: false] is refused. *)
Definition CreatesMissingIntermediates : Prop :=
  forall path h,
    missingIntermediatesAt path h ->
    (exists h',
       makeDirectoryAsync FileSystem path {[ "intermediates" := VBool true ]} h
         = (Fulfilled tt, h') /\
       forall q, q = path \/ In q (intermediateSegments path) -> reportsDirectory q h') /\
    (exists e h', makeDirectoryAsync FileSystem path {[ "intermediates" := VBool false ]} h
                  = (Rejected e, h')).

End Contracts.

(** ** Observing the calls a method makes on any host

    [Recorder.host inner] behaves as [inner] and keeps, beside the state
    of [inner], the list of the calls it received, oldest first. *)

Module Recorder.
Section Recorder.
Context {H : Type} (inner : Host H).

Definition record {A} (c : TraceHost.call) (request : Async H A)
    : Async (H * list TraceHost.call) A :=
  fun s =>
    let '(o, h') := request (fst s) in
    (o, (h', (snd s ++ [c])%list)).

Definition host : Host (H * list TraceHost.call) :=
  {| EncodingType := EncodingType inner;
     readAsStringAsync := fun p o =>
       record (TraceHost.ReadAsString p o) (readAsStringAsync inner p o);
     writeAsStringAsync := fun p d o =>
       record (TraceHost.WriteAsString p d o) (writeAsStringAsync inner p d o);
     deleteAsync := fun p => record (TraceHost.Delete p) (deleteAsync inner p);
     getInfoAsync := fun p o => record (TraceHost.GetInfo p o) (getInfoAsync inner p o);
     moveAsync := fun o => record (TraceHost.Move o) (moveAsync inner o);
     copyAsync := fun o => record (TraceHost.Copy o) (copyAsync inner o);
     makeDirectoryAsync := fun p o =>
       record (TraceHost.MakeDirectory p o) (makeDirectoryAsync inner p o);
     readDirectoryAsync := fun p =>
       record (TraceHost.ReadDirectory p) (readDirectoryAsync inner p) |}.

End Recorder.
End Recorder.

(** A host that holds one text, serves it for every read and refuses every
    change. *)
Module ReadOnlyHost.

Definition refused : error := {| name := "HostError"; message := "read-only file system" |}.

Definition host : Host string :=
  {| EncodingType := {[ "UTF8" := VStr "utf8"; "Base64" := VStr "base64" ]};
     readAsStringAsync := fun _ _ text => (Fulfilled text, text);
     writeAsStringAsync := fun _ _ _ text => (Rejected refused, text);
     deleteAsync := fun _ text => (Rejected refused, text);
     getInfoAsync := fun p _ text =>
       (Fulfilled {[ "exists" := VBool true; "uri" := VStr p;
                     "isDirectory" := VBool false ]}, text);
     moveAsync := fun _ text => (Rejected refused, text);
     copyAsync := fun _ text => (Rejected refused, text);
     makeDirectoryAsync := fun _ _ text => (Rejected refused, text);
     readDirectoryAsync := fun _ text => (Fulfilled [], text) |}.

End ReadOnlyHost.

(** The path arguments of an operation, and the paths a host call carries
    (for a move or a copy, the [from] and [to] properties of its bag). *)
Definition pathsOf (op : operation) : list value :=
  match op with
  | OpReadFile p _ | OpWriteFile p _ _ | OpAppendFile p _ | OpUnlink p
  | OpMkdir p _ | OpReaddir p | OpStat p => [VStr p]
  | OpRename a b | OpCopyFile a b => [VStr a; VStr b]
  end.

Definition callPaths (c : TraceHost.call) : list value :=
  match c with
  | TraceHost.ReadAsString p _ | TraceHost.WriteAsString p _ _ | TraceHost.Delete p
  | TraceHost.GetInfo p _ | TraceHost.MakeDirectory p _ | TraceHost.ReadDirectory p =>
      [VStr p]
  | TraceHost.Move o | TraceHost.Copy o => [get o "from"; get o "to"]
  end.

(** A caller that appends chunks one after the other, awaiting each
    [appendFile] before the next. *)
Fixpoint appendAll {H : Type} (FileSystem : Host H) (path : string)
    (chunks : list string) : Async H unit :=
  match chunks with
  | [] => ret tt
  | chunk :: rest =>
      await_ fs.appendFile FileSystem path chunk;
      appendAll FileSystem path rest
  end.

(** [appendFile] has two awaits, and other work can run while it is
    suspended at either.  [resumeAppend] is the part of its body that runs
    once the read has settled: the write of the contents read with the data
    appended, inside the same [try].  [overlappingAppends] is a caller that
    starts two appends on one path without awaiting the first
    ([Promise.all] of the two calls): each call runs up to its read, then
    each resumes, so the host sees read, read, write, write.  It yields the
    outcomes of the two calls. *)
Definition resumeAppend {H : Type} (FileSystem : Host H) (path data : string)
    (read : outcome string) : Async H unit :=
  try_catch
    (match read with
     | Fulfilled existingData => fs.writeFile FileSystem path (existingData +:+ data) None
     | Rejected e => throw e
     end)
    (fun error =>
       throw (Error ("Failed to append file at " +:+ path +:+ ": " +:+ message error))).

Definition overlappingAppends {H : Type} (FileSystem : Host H) (path a b : string)
    (h : H) : (outcome unit * outcome unit) * H :=
  let '(readA, h) := fs.readFile FileSystem path None h in
  let '(readB, h) := fs.readFile FileSystem path None h in
  let '(doneA, h) := resumeAppend FileSystem path a readA h in
  let '(doneB, h) := resumeAppend FileSystem path b readB h in
  ((doneA, doneB), h).

(** [concat chunks] as one string. *)
Fixpoint joined (chunks : list string) : string :=
  match chunks with
  | [] => ""
  | chunk :: rest => chunk +:+ joined rest
  end.

(** A lower-case ASCII letter, and a string that contains one. *)
Definition isLowerChar (c : ascii) : bool :=
  let n := nat_of_ascii c in (Nat.leb 97 n && Nat.leb n 122)%bool.

Fixpoint hasLowerCase (s : string) : bool :=
  match s with
  | EmptyString => false
  | String c r => isLowerChar c || hasLowerCase r
  end.

(** Whether a call of the operation fails at a read that precedes its
    work: only [appendFile] reads first. *)
Definition failsAtRead {H : Type} (FileSystem : Host H) (op : operation) (h : H) : bool :=
  match op with
  | OpAppendFile p _ =>
      match readAsStringAsync FileSystem p
              {[ "encoding" := fs.encodingOption FileSystem "utf8" ]} h with
      | (Rejected _, _) => true
      | (Fulfilled _, _) => false
      end
  | _ => false
  end.

(** * Properties *)

(** ** Running the facade on the two hosts *)

Example mem_demo :
  fst (fs.readFile MemHost.host "/a/b/c.txt" None
         (snd (fs.writeFile MemHost.host "/a/b/c.txt" "hi" None
            (snd (fs.mkdir MemHost.host "/a/b" None MemHost.empty)))))
  = Fulfilled "hi".
Proof. vm_compute. reflexivity. Qed.

Example trace_demo :
  snd (fs.rename (TraceHost.host None) "/a" "/b" [])
  = [TraceHost.Move {[ "from" := VStr "/a"; "to" := VStr "/b" ]}].
Proof. vm_compute. reflexivity. Qed.

(** ** The async monad *)

Section AsyncLemmas.
Context {H : Type}.

Lemma try_catch_fulfilled {A} (m : Async H A) handler h a h' :
  m h = (Fulfilled a, h') -> try_catch m handler h = (Fulfilled a, h').
Proof. intros E. unfold try_catch. rewrite E. reflexivity. Qed.

Lemma try_catch_rejected {A} (m : Async H A) handler h e h' :
  m h = (Rejected e, h') -> try_catch m handler h = handler e h'.
Proof. intros E. unfold try_catch. rewrite E. reflexivity. Qed.

Lemma bind_fulfilled {A B} (m : Async H A) (k : A -> Async H B) h a h' :
  m h = (Fulfilled a, h') -> bind m k h = k a h'.
Proof. intros E. unfold bind. rewrite E. reflexivity. Qed.

Lemma bind_rejected {A B} (m : Async H A) (k : A -> Async H B) h e h' :
  m h = (Rejected e, h') -> bind m k h = (Rejected e, h').
Proof. intros E. unfold bind. rewrite E. reflexivity. Qed.

End AsyncLemmas.

(** ** exists *)

(** C2.  [exists] never rejects: it is fulfilled whatever the host does;
    when the host's get-info call fails, with any error, it is fulfilled
    with [false]; when the call succeeds it is fulfilled with the [exists]
    property of the host's answer, a boolean whenever the host reports
    one. *)
Theorem exists_swallows_failure {H : Type} (FileSystem : Host H) (path : string) (h : H) :
  (exists v h', fs.exists_ FileSystem path h = (Fulfilled v, h')) /\
  (forall e h', getInfoAsync FileSystem path None h = (Rejected e, h') ->
     fs.exists_ FileSystem path h = (Fulfilled (VBool false), h')) /\
  (forall info h' b, getInfoAsync FileSystem path None h = (Fulfilled info, h') ->
     get info "exists" = VBool b ->
     fs.exists_ FileSystem path h = (Fulfilled (VBool b), h')).
Proof.
  unfold fs.exists_, try_catch, bind, ret.
  destruct (getInfoAsync FileSystem path None h) as [[info|e] h1] eqn:E.
  - split; [eauto|]. split.
    + intros e h' Hrej. discriminate.
    + intros info' h' b Hful Hb. injection Hful as -> ->. rewrite Hb. reflexivity.
  - split; [eauto|]. split.
    + intros e' h' Hrej. injection Hrej as -> ->. reflexivity.
    + intros info h' b Hful. discriminate.
Qed.

Lemma exists_swallows_failure_witness :
  fs.exists_ (TraceHost.host (Some (MemHost.hostError "EIO"))) "/a" []
    = (Fulfilled (VBool false), [TraceHost.GetInfo "/a" None]) /\
  fs.exists_ MemHost.host "/a.txt" (MemHost.MkMem {[ "/a.txt" := MemHost.File "x" 0 ]} 1)
    = (Fulfilled (VBool true), MemHost.MkMem {[ "/a.txt" := MemHost.File "x" 0 ]} 1).
Proof.
  split.
  - destruct (exists_swallows_failure
                (TraceHost.host (Some (MemHost.hostError "EIO"))) "/a" [])
      as (_ & Hrej & _).
    apply (Hrej (MemHost.hostError "EIO")). vm_compute. reflexivity.
  - destruct (exists_swallows_failure MemHost.host "/a.txt"
                (MemHost.MkMem {[ "/a.txt" := MemHost.File "x" 0 ]} 1))
      as (_ & _ & Hful).
    refine (Hful {[ "exists" := VBool true; "uri" := VStr "/a.txt";
                    "isDirectory" := VBool false;
                    "modificationTime" := VNum 0 ]} _ true _ _);
      vm_compute; reflexivity.
Defined.

(** ** Encoding names *)

Lemma upperChar_lowerChar (c : ascii) : upperChar (lowerChar c) = upperChar c.
Proof. destruct c as [[] [] [] [] [] [] [] []]; vm_compute; reflexivity. Qed.

Lemma toUpperCase_toLowerCase (s : string) : toUpperCase (toLowerCase s) = toUpperCase s.
Proof.
  induction s as [|c r IH]; simpl; [reflexivity|].
  rewrite upperChar_lowerChar, IH. reflexivity.
Qed.

(** Names that differ only in the case of their letters have the same
    upper-case form. *)
Lemma sameUpToCase_toUpperCase (a b : string) :
  sameUpToCase a b -> toUpperCase a = toUpperCase b.
Proof.
  unfold sameUpToCase. intros E.
  rewrite <- (toUpperCase_toLowerCase a), <- (toUpperCase_toLowerCase b), E.
  reflexivity.
Qed.

Lemma or_same (v : value) : Js.or v v = v.
Proof. unfold Js.or. destruct (truthy v); reflexivity. Qed.

Section Encoding.
Context {H : Type} (FileSystem : Host H).

Lemma encodingOption_utf8 :
  fs.encodingOption FileSystem "utf8" = get (EncodingType FileSystem) "UTF8".
Proof. unfold fs.encodingOption. simpl toUpperCase. apply or_same. Qed.

Lemma encodingOption_case (e1 e2 : string) :
  sameUpToCase e1 e2 -> fs.encodingOption FileSystem e1 = fs.encodingOption FileSystem e2.
Proof.
  intros E. unfold fs.encodingOption.
  rewrite (sameUpToCase_toUpperCase _ _ E). reflexivity.
Qed.

Lemma encodingOption_fallback (e : string) :
  recognised FileSystem e = false ->
  fs.encodingOption FileSystem e = fs.encodingOption FileSystem "utf8".
Proof.
  unfold recognised. intros E. rewrite encodingOption_utf8.
  unfold fs.encodingOption, Js.or. rewrite E. reflexivity.
Qed.

(** The three methods with an [encoding] parameter use it only through
    [encodingOption]. *)
Lemma encoding_only_through_option (e1 e2 : option string) :
  fs.encodingOption FileSystem (fs.defaulted "utf8" e1)
    = fs.encodingOption FileSystem (fs.defaulted "utf8" e2) ->
  (forall p h, fs.readFile FileSystem p e1 h = fs.readFile FileSystem p e2 h) /\
  (forall p d h, fs.writeFile FileSystem p d e1 h = fs.writeFile FileSystem p d e2 h) /\
  (forall p m, Loop.readFileSync FileSystem p e1 m = Loop.readFileSync FileSystem p e2 m).
Proof.
  intros E. repeat split; intros.
  - unfold fs.readFile. rewrite E. reflexivity.
  - unfold fs.writeFile. rewrite E. reflexivity.
  - unfold Loop.readFileSync. rewrite E. reflexivity.
Qed.

End Encoding.

(** C4.  The [encoding] argument of [readFile], [writeFile] and
    [readFileSync] is resolved without regard to case: two names that
    differ only in the case of their letters give the same call.  A name
    the host's table does not recognise resolves to the table's UTF8 entry,
    so the call is the one made for ["utf8"] and no error is raised for the
    name.  An omitted argument stands for ["utf8"]. *)
Theorem encoding_resolution {H : Type} (FileSystem : Host H) :
  (forall e1 e2, sameUpToCase e1 e2 ->
     fs.encodingOption FileSystem e1 = fs.encodingOption FileSystem e2 /\
     (forall p h, fs.readFile FileSystem p (Some e1) h
                  = fs.readFile FileSystem p (Some e2) h) /\
     (forall p d h, fs.writeFile FileSystem p d (Some e1) h
                    = fs.writeFile FileSystem p d (Some e2) h) /\
     (forall p m, Loop.readFileSync FileSystem p (Some e1) m
                  = Loop.readFileSync FileSystem p (Some e2) m)) /\
  (forall e, recognised FileSystem e = false ->
     fs.encodingOption FileSystem e = get (EncodingType FileSystem) "UTF8" /\
     (forall p h, fs.readFile FileSystem p (Some e) h
                  = fs.readFile FileSystem p (Some "utf8") h) /\
     (forall p d h, fs.writeFile FileSystem p d (Some e) h
                    = fs.writeFile FileSystem p d (Some "utf8") h) /\
     (forall p m, Loop.readFileSync FileSystem p (Some e) m
                  = Loop.readFileSync FileSystem p (Some "utf8") m)) /\
  ((forall p h, fs.readFile FileSystem p None h
                = fs.readFile FileSystem p (Some "utf8") h) /\
   (forall p d h, fs.writeFile FileSystem p d None h
                  = fs.writeFile FileSystem p d (Some "utf8") h) /\
   (forall p m, Loop.readFileSync FileSystem p None m
                = Loop.readFileSync FileSystem p (Some "utf8") m)).
Proof.
  split; [|split].
  - intros e1 e2 E. split; [apply encodingOption_case, E|].
    apply encoding_only_through_option. simpl. apply encodingOption_case, E.
  - intros e E. split.
    + rewrite encodingOption_fallback by exact E. apply encodingOption_utf8.
    + apply encoding_only_through_option. simpl. apply encodingOption_fallback, E.
  - apply (encoding_only_through_option FileSystem None (Some "utf8")). reflexivity.
Qed.

Lemma encoding_resolution_witness :
  fs.encodingOption MemHost.host "Utf8" = fs.encodingOption MemHost.host "UTF8" /\
  fs.encodingOption MemHost.host "latin1" = VStr "utf8".
Proof.
  destruct (encoding_resolution MemHost.host) as (Hcase & Hfallback & _).
  split.
  - apply (Hcase "Utf8" "UTF8"). vm_compute. reflexivity.
  - destruct (Hfallback "latin1") as (E & _).
    + vm_compute. reflexivity.
    + rewrite E. vm_compute. reflexivity.
Defined.

(** What the host is sent for a few encoding names.  With a table keyed
    [UTF8] and [Base64], as [MemHost] and [TraceHost] have it, the only key
    an upper-cased name can hit is [UTF8]. *)
Example encoding_trace :
  snd (fs.readFile (TraceHost.host None) "/a" (Some "Utf8") [])
    = [TraceHost.ReadAsString "/a" {[ "encoding" := VStr "utf8" ]}] /\
  snd (fs.readFile (TraceHost.host None) "/a" (Some "klingon") [])
    = [TraceHost.ReadAsString "/a" {[ "encoding" := VStr "utf8" ]}] /\
  snd (fs.writeFile (TraceHost.host None) "/a" "x" (Some "base64") [])
    = [TraceHost.WriteAsString "/a" "x" {[ "encoding" := VStr "utf8" ]}].
Proof. vm_compute. repeat split. Qed.

(** ** mkdir and its options *)

(** C10.  With an options object that has no [recursive] property, such as
    [{}], [mkdir] sends the host [intermediates: undefined]; [true] is sent
    only when the whole argument is omitted.  On a host that creates
    intermediate directories only when asked, the former fails where the
    latter succeeds. *)
Theorem mkdir_options_without_recursive {H : Type} (FileSystem : Host H)
    (path : string) (options : obj) (h : H) :
  options !! "recursive" = None ->
  fs.mkdir FileSystem path (Some options) h
    = try_catch
        (makeDirectoryAsync FileSystem path {[ "intermediates" := VUndef ]})
        (fun error =>
           throw (Error ("Failed to create directory at " +:+ path +:+ ": "
                         +:+ message error))) h /\
  fs.mkdir FileSystem path None h
    = try_catch
        (makeDirectoryAsync FileSystem path {[ "intermediates" := VBool true ]})
        (fun error =>
           throw (Error ("Failed to create directory at " +:+ path +:+ ": "
                         +:+ message error))) h /\
  (forall log,
     snd (fs.mkdir (TraceHost.host None) path (Some options) log)
       = (log ++ [TraceHost.MakeDirectory path {[ "intermediates" := VUndef ]}])%list /\
     snd (fs.mkdir (TraceHost.host None) path None log)
       = (log ++ [TraceHost.MakeDirectory path {[ "intermediates" := VBool true ]}])%list).
Proof.
  intros E.
  assert (Hget : get options "recursive" = VUndef) by (unfold get; rewrite E; reflexivity).
  unfold fs.mkdir. simpl fs.defaulted. rewrite Hget.
  assert (Hdef : get ({[ "recursive" := VBool true ]} : obj) "recursive" = VBool true)
    by (unfold get; rewrite lookup_singleton_eq; reflexivity).
  rewrite Hdef. repeat split.
Qed.

Lemma mkdir_options_without_recursive_witness :
  snd (fs.mkdir (TraceHost.host None) "/a/b" (Some ∅) [])
    = [TraceHost.MakeDirectory "/a/b" {[ "intermediates" := VUndef ]}] /\
  (exists e, fst (fs.mkdir MemHost.host "/a/b" (Some ∅) MemHost.empty) = Rejected e) /\
  fst (fs.mkdir MemHost.host "/a/b" None MemHost.empty) = Fulfilled tt.
Proof.
  split; [|split].
  - destruct (mkdir_options_without_recursive (TraceHost.host None) "/a/b" ∅ [])
      as (_ & _ & Hlog).
    + apply lookup_empty.
    + apply (Hlog []).
  - eexists. vm_compute. reflexivity.
  - vm_compute. reflexivity.
Defined.

(** ** The pseudo-synchronous variants *)

Section LoopLemmas.
Context {H : Type}.
Implicit Types m : Loop.Machine H.

Lemma store_newPromise m : Loop.store (snd (Loop.newPromise m)) = Loop.store m.
Proof. reflexivity. Qed.

(** Nor does issuing a host request. *)
Lemma store_hostCall {A} (request : Async H A) inj m :
  Loop.store (snd (Loop.hostCall request inj m)) = Loop.store m.
Proof.
  unfold Loop.hostCall. destruct (Loop.settlesEarly m); [|reflexivity].
  destruct (request (Loop.hostState m)) as [[a|e] h']; reflexivity.
Qed.

(** Registering a reaction runs no callback: the variables are untouched. *)
Lemma store_then p onFul onRej m :
  Loop.store (snd (Loop.then_ p onFul onRej m)) = Loop.store m.
Proof.
  unfold Loop.then_. simpl.
  destruct (_ !! p) as [[rs|s handled]|]; reflexivity.
Qed.

Lemma readVar_letVar v m :
  Loop.readVar (fst (Loop.letVar v m)) (snd (Loop.letVar v m)) = v.
Proof. unfold Loop.readVar, Loop.letVar. simpl. rewrite lookup_insert_eq. reflexivity. Qed.

Lemma readVar_store x m m' :
  Loop.store m' = Loop.store m -> Loop.readVar x m' = Loop.readVar x m.
Proof. unfold Loop.readVar. intros ->. reflexivity. Qed.

End LoopLemmas.

(** Walk through the host call and the registrations of a method body,
    recording that each leaves the variables as they were. *)
Ltac registrations_keep_store :=
  repeat match goal with
  | |- context [Loop.hostCall ?r ?i ?m] =>
      let E := fresh "Hstore" in
      pose proof (store_hostCall r i m) as E;
      destruct (Loop.hostCall r i m) as [? ?]; simpl in E
  | |- context [Loop.then_ ?p ?f ?g ?m] =>
      let E := fresh "Hstore" in
      pose proof (store_then p f g m) as E;
      destruct (Loop.then_ p f g m) as [? ?]; simpl in E
  end.

(** C1.  Whatever the machine and the host are doing, and so whatever is
    on the file system, [existsSync] returns [false] and [readFileSync]
    returns the empty string, for every path and encoding.  Both complete
    by [return], never by [throw]: a failure of the host call cannot reach
    the caller. *)
Theorem sync_variants_return_placeholder {H : Type} (FileSystem : Host H)
    (m : Loop.Machine H) (path : string) :
  fst (Loop.existsSync FileSystem path m) = Loop.Return (VBool false) /\
  forall encoding : option string,
    fst (Loop.readFileSync FileSystem path encoding m) = Loop.Return (VStr "").
Proof.
  split; [|intros encoding].
  - unfold Loop.existsSync, Loop.catch_.
    pose proof (readVar_letVar (VBool false) m) as Hread.
    destruct (Loop.letVar (VBool false) m) as [x m0]. simpl in Hread.
    registrations_keep_store. simpl. f_equal.
    rewrite <- Hread. apply readVar_store. congruence.
  - unfold Loop.readFileSync, Loop.catch_.
    pose proof (readVar_letVar (VStr "") m) as Hread.
    destruct (Loop.letVar (VStr "") m) as [x m0]. simpl in Hread.
    registrations_keep_store. simpl. f_equal.
    rewrite <- Hread. apply readVar_store. congruence.
Qed.


(** What the caller can no longer see: once the loop has run, the variable
    holds the host's answer, and the error thrown in [readFileSync]'s
    rejection handler has rejected a promise nobody holds. *)
Lemma existsSync_answer_arrives_late {H : Type} (FileSystem : Host H) path h info h' :
  getInfoAsync FileSystem path None h = (Fulfilled info, h') ->
  let m := Loop.runLoop 3 (snd (Loop.existsSync FileSystem path (Loop.boot false h))) in
  Loop.readVar 0 m = get info "exists" /\ Loop.step m = None /\
  Loop.unhandledRejections m = [].
Proof.
  intros E. cbn -[get]. rewrite E. cbn -[get].
  unfold Loop.readVar. cbn -[get]. rewrite lookup_insert_eq. repeat split.
Qed.

Lemma existsSync_failure_is_silent {H : Type} (FileSystem : Host H) path h e h' :
  getInfoAsync FileSystem path None h = (Rejected e, h') ->
  let m := Loop.runLoop 3 (snd (Loop.existsSync FileSystem path (Loop.boot false h))) in
  Loop.readVar 0 m = VBool false /\ Loop.step m = None /\
  Loop.unhandledRejections m = [].
Proof.
  intros E. cbn. rewrite E. cbn.
  unfold Loop.readVar. cbn. rewrite lookup_insert_eq. repeat split.
Qed.

Lemma readFileSync_answer_arrives_late {H : Type} (FileSystem : Host H)
    path encoding h data h' :
  readAsStringAsync FileSystem path
    {[ "encoding" := fs.encodingOption FileSystem (fs.defaulted "utf8" encoding) ]} h
    = (Fulfilled data, h') ->
  let m := Loop.runLoop 3
             (snd (Loop.readFileSync FileSystem path encoding (Loop.boot false h))) in
  Loop.readVar 0 m = VStr data /\ Loop.step m = None /\
  Loop.unhandledRejections m = [].
Proof.
  intros E. unfold Loop.readFileSync.
  set (o := ({[ "encoding" := _ ]} : obj)) in *. clearbody o.
  cbn. rewrite E. cbn.
  unfold Loop.readVar. cbn. rewrite lookup_insert_eq. repeat split.
Qed.

Lemma readFileSync_failure_is_detached {H : Type} (FileSystem : Host H)
    path encoding h e h' :
  readAsStringAsync FileSystem path
    {[ "encoding" := fs.encodingOption FileSystem (fs.defaulted "utf8" encoding) ]} h
    = (Rejected e, h') ->
  let m := Loop.runLoop 3
             (snd (Loop.readFileSync FileSystem path encoding (Loop.boot false h))) in
  Loop.readVar 0 m = VStr "" /\ Loop.step m = None /\
  Loop.unhandledRejections m
    = [Error ("Failed to read file at " +:+ path +:+ ": " +:+ message e)].
Proof.
  intros E. unfold Loop.readFileSync.
  set (o := ({[ "encoding" := _ ]} : obj)) in *. clearbody o.
  cbn. rewrite E. cbn.
  unfold Loop.readVar. cbn. rewrite lookup_insert_eq. repeat split.
Qed.

(** The same on a host whose promise is settled before the call returns:
    the reaction is queued as a job, and still runs too late. *)
Lemma existsSync_early_host_still_late {H : Type} (FileSystem : Host H) path h info h' :
  getInfoAsync FileSystem path None h = (Fulfilled info, h') ->
  fst (Loop.existsSync FileSystem path (Loop.boot true h)) = Loop.Return (VBool false) /\
  let m := Loop.runLoop 2 (snd (Loop.existsSync FileSystem path (Loop.boot true h))) in
  Loop.readVar 0 m = get info "exists" /\ Loop.step m = None /\
  Loop.unhandledRejections m = [].
Proof.
  intros E. unfold Loop.existsSync, Loop.hostCall. cbn -[get]. rewrite E. cbn -[get].
  unfold Loop.readVar. cbn -[get]. rewrite !lookup_insert_eq. repeat split.
Qed.

Example sync_on_existing_file :
  let h := snd (fs.writeFile MemHost.host "/a.txt" "hello" None MemHost.empty) in
  fst (fs.exists_ MemHost.host "/a.txt" h) = Fulfilled (VBool true) /\
  fst (fs.readFile MemHost.host "/a.txt" None h) = Fulfilled "hello" /\
  fst (Loop.existsSync MemHost.host "/a.txt" (Loop.boot false h)) = Loop.Return (VBool false) /\
  fst (Loop.readFileSync MemHost.host "/a.txt" None (Loop.boot false h)) = Loop.Return (VStr "").
Proof. vm_compute. repeat split. Qed.

(** ** Error wrapping *)

Lemma append_cons c s t : String c s +:+ t = String c (s +:+ t).
Proof. reflexivity. Qed.

Lemma append_nil_l s : "" +:+ s = s.
Proof. reflexivity. Qed.

Lemma append_assoc (a b c : string) : (a +:+ b) +:+ c = a +:+ (b +:+ c).
Proof. induction a as [|x a IH]; [reflexivity|]. rewrite !append_cons, IH. reflexivity. Qed.

Lemma embeds_refl s : embeds s s.
Proof. exists "". reflexivity. Qed.

Lemma embeds_append pre s t : embeds s t -> embeds s (pre +:+ t).
Proof. intros [b ->]. exists (pre +:+ b). symmetry. apply append_assoc. Qed.

Section Wrapping.
Context {H : Type} (FileSystem : Host H).

Lemma readFile_unfold path encoding h :
  fs.readFile FileSystem path encoding h =
  match readAsStringAsync FileSystem path
          {[ "encoding" := fs.encodingOption FileSystem (fs.defaulted "utf8" encoding) ]} h with
  | (Fulfilled content, h') => (Fulfilled content, h')
  | (Rejected e, h') =>
      (Rejected (Error ("Failed to read file at " +:+ path +:+ ": " +:+ message e)), h')
  end.
Proof.
  unfold fs.readFile, try_catch, bind, ret, throw.
  destruct (readAsStringAsync _ _ _ h) as [[c|e] h']; reflexivity.
Qed.

Lemma writeFile_unfold path data encoding h :
  fs.writeFile FileSystem path data encoding h =
  match writeAsStringAsync FileSystem path data
          {[ "encoding" := fs.encodingOption FileSystem (fs.defaulted "utf8" encoding) ]} h with
  | (Fulfilled u, h') => (Fulfilled u, h')
  | (Rejected e, h') =>
      (Rejected (Error ("Failed to write file at " +:+ path +:+ ": " +:+ message e)), h')
  end.
Proof.
  unfold fs.writeFile, try_catch, throw.
  destruct (writeAsStringAsync _ _ _ _ h) as [[u|e] h']; reflexivity.
Qed.

(** Every operation fails exactly when the host call it makes fails, and
    then throws [new Error] of its template, a colon and the message of the
    error it caught. *)
Lemma invoke_outcome (op : operation) (h : H) :
  match hostFailure FileSystem op h with
  | Some e0 =>
      exists underlying h',
        invoke FileSystem op h
          = (Rejected (Error (template op +:+ ": " +:+ underlying)), h') /\
        embeds (message e0) underlying
  | None => exists h', invoke FileSystem op h = (Fulfilled tt, h')
  end.
Proof.
  destruct op; simpl.
  3: {
    unfold fs.appendFile, try_catch, bind, throw.
    rewrite readFile_unfold. simpl fs.defaulted.
    destruct (readAsStringAsync _ _ _ h) as [[c|e] h1].
    - rewrite writeFile_unfold. simpl fs.defaulted.
      destruct (writeAsStringAsync _ _ _ _ h1) as [[[]|e] h2]; simpl.
      + eexists; reflexivity.
      + eexists _, _. split; [rewrite append_assoc; reflexivity|].
        simpl message. do 3 apply embeds_append. apply embeds_refl.
    - simpl. eexists _, _. split; [rewrite append_assoc; reflexivity|].
      simpl message. do 3 apply embeds_append. apply embeds_refl. }
  all: unfold fs.readFile, fs.writeFile, fs.unlink, fs.rename, fs.mkdir,
      fs.readdir, fs.stat, fs.copyFile, settle_only, try_catch, bind, ret, throw.
  all: match goal with
       | |- context [rejection (?f ?h)] => destruct (f h) as [[?|?] ?]
       end; simpl.
  all: try (eexists; repeat match goal with u : unit |- _ => destruct u end; reflexivity).
  all: try (eexists _, _; split; [rewrite ?append_assoc; reflexivity| apply embeds_refl]).
Qed.
End Wrapping.

Lemma template_pattern op hostMessage underlying :
  embeds hostMessage underlying ->
  followsPattern (prepositions op) op hostMessage (template op +:+ ": " +:+ underlying).
Proof.
  intros E. unfold followsPattern.
  destruct op; simpl template; simpl pathPart; simpl prepositions.
  - exists "read", "file", "at", underlying. repeat split; simpl; auto.
  - exists "write", "file", "at", underlying. repeat split; simpl; auto.
  - exists "append", "file", "at", underlying. repeat split; simpl; auto.
  - exists "delete", "file", "at", underlying. repeat split; simpl; auto.
  - exists "rename", "file", "from", underlying. repeat split; simpl; auto.
  - exists "create", "directory", "at", underlying. repeat split; simpl; auto.
  - exists "read", "directory", "at", underlying. repeat split; simpl; auto.
  - exists "retrieve", "stats", "for", underlying. repeat split; simpl; auto.
  - exists "copy", "file", "from", underlying. repeat split; simpl; auto.
Qed.

Lemma word_split (w1 w2 r1 r2 : string) :
  spaceFree w1 = true -> spaceFree w2 = true ->
  w1 +:+ " " +:+ r1 = w2 +:+ " " +:+ r2 -> w1 = w2 /\ r1 = r2.
Proof.
  revert w2. induction w1 as [|c w1 IH]; intros [|d w2] F1 F2 E;
    rewrite ?append_cons, ?append_nil_l in E.
  - injection E as ->. auto.
  - exfalso. injection E as <- _. simpl in F2. discriminate.
  - exfalso. injection E as -> _. simpl in F1. discriminate.
  - injection E as -> E.
    simpl in F1, F2. apply andb_prop in F1 as [_ F1]. apply andb_prop in F2 as [_ F2].
    destruct (IH w2 F1 F2 E) as [-> ->]. auto.
Qed.

Lemma isWord_spaceFree w : isWord w = true -> spaceFree w = true.
Proof. destruct w; [discriminate|auto]. Qed.

Lemma template_determines_kind op1 op2 u1 u2 :
  template op1 +:+ ": " +:+ u1 = template op2 +:+ ": " +:+ u2 ->
  specErrorKind op1 = specErrorKind op2.
Proof.
  intros E.
  destruct op1, op2; simpl specErrorKind; try reflexivity; exfalso;
    simpl template in E; rewrite ?append_assoc, ?append_cons in E; discriminate E.
Qed.


(** C6 (amended).  An operation throws exactly when the host call it makes
    fails, and the message of the error it throws is
    [Failed to <verb> <noun> <prep> <path>[ to <path>]: <underlying message>]
    where the preposition is [at] or [from] and, for [stat], [for]; the
    message of the host's error is embedded in the underlying message. *)
Theorem error_message_pattern {H : Type} (FileSystem : Host H) (op : operation) (h : H) :
  (forall e0, hostFailure FileSystem op h = Some e0 ->
     exists e h', invoke FileSystem op h = (Rejected e, h') /\
       followsPattern (prepositions op) op (message e0) (message e)) /\
  (forall e h', invoke FileSystem op h = (Rejected e, h') ->
     exists e0, hostFailure FileSystem op h = Some e0 /\
       followsPattern (prepositions op) op (message e0) (message e)).
Proof.
  pose proof (invoke_outcome FileSystem op h) as Hout.
  destruct (hostFailure FileSystem op h) as [e0|].
  - destruct Hout as (u & h1 & Hout & Hemb). split.
    + intros e0' [= <-]. eexists _, _. split; [exact Hout|].
      apply template_pattern, Hemb.
    + intros e h' E. rewrite Hout in E. injection E as <- <-.
      exists e0. split; [reflexivity|]. apply template_pattern, Hemb.
  - destruct Hout as [h1 Hout]. split.
    + intros e0 [=].
    + intros e h' E. rewrite Hout in E. discriminate E.
Qed.

Lemma error_message_pattern_witness :
  (exists e h',
     invoke (TraceHost.host (Some (MemHost.hostError "boom"))) (OpRename "/a" "/b") []
       = (Rejected e, h') /\
     followsPattern ["at"; "from"] (OpRename "/a" "/b") "boom" (message e)) /\
  (exists e0,
     hostFailure MemHost.host (OpAppendFile "/x" "tail") MemHost.empty = Some e0 /\
     followsPattern ["at"; "from"] (OpAppendFile "/x" "tail") (message e0)
       "Failed to append file at /x: Failed to read file at /x: /x does not exist").
Proof.
  split.
  - destruct (error_message_pattern (TraceHost.host (Some (MemHost.hostError "boom")))
                (OpRename "/a" "/b") []) as [Hthrown _].
    apply (Hthrown (MemHost.hostError "boom")). vm_compute. reflexivity.
  - destruct (error_message_pattern MemHost.host (OpAppendFile "/x" "tail") MemHost.empty)
      as [_ Hfrom].
    apply (Hfrom (Error "Failed to append file at /x: Failed to read file at /x: /x does not exist")
                 MemHost.empty).
    vm_compute. reflexivity.
Defined.

(** C6 as stated fails for [stat]: its message says [for <path>], which is
    neither [at] nor [from]. *)
Lemma stat_message_not_at_from :
  let boom := MemHost.hostError "boom" in
  hostFailure (TraceHost.host (Some boom)) (OpStat "/a") [] = Some boom /\
  fst (invoke (TraceHost.host (Some boom)) (OpStat "/a") [])
    = Rejected (Error "Failed to retrieve stats for /a: boom") /\
  ~ followsPattern ["at"; "from"] (OpStat "/a") "boom"
      "Failed to retrieve stats for /a: boom".
Proof.
  split; [vm_compute; reflexivity|]. split; [vm_compute; reflexivity|].
  intros (verb & noun & prep & underlying & Wv & Wn & Hin & E & _).
  change "Failed to retrieve stats for /a: boom"
    with ("Failed to " +:+ "retrieve" +:+ " " +:+ "stats" +:+ " " +:+ "for /a: boom") in E.
  apply (inj (String.app "Failed to ")) in E.
  apply word_split in E as [<- E]; [|reflexivity|apply isWord_spaceFree, Wv].
  apply word_split in E as [<- E]; [|reflexivity|apply isWord_spaceFree, Wn].
  destruct Hin as [<-|[<-|[]]]; discriminate E.
Qed.


(** C5 as stated fails: the error of a failed read is not a
    [FileReadError] but a plain [Error], and so is the error of a failed
    write; the two have the same kind. *)
Lemma error_kinds_are_not_named :
  let FileSystem := TraceHost.host (Some (MemHost.hostError "boom")) in
  exists e1 e2,
    fst (invoke FileSystem (OpReadFile "/a" None) []) = Rejected e1 /\
    fst (invoke FileSystem (OpWriteFile "/a" "x" None) []) = Rejected e2 /\
    name e1 <> specErrorKind (OpReadFile "/a" None) /\
    name e2 <> specErrorKind (OpWriteFile "/a" "x" None) /\
    name e1 = name e2.
Proof.
  eexists _, _. split; [vm_compute; reflexivity|]. split; [vm_compute; reflexivity|].
  simpl. repeat split; discriminate.
Qed.

(** C5 (amended).  Every operation that fails throws a plain [Error]; no
    error kind is named.  Its message starts with the template of the
    operation, and the templates tell the operations apart: two failures
    with the same message belong to the same one of the nine kinds the
    specification lists. *)
Theorem errors_told_apart_by_message {H : Type} (FileSystem : Host H)
    (op : operation) (h : H) (e : error) (h' : H) :
  invoke FileSystem op h = (Rejected e, h') ->
  name e = "Error" /\
  (exists rest, message e = template op +:+ rest) /\
  (forall (FileSystem2 : Host H) op2 h2 e2 h2',
     invoke FileSystem2 op2 h2 = (Rejected e2, h2') ->
     message e2 = message e -> specErrorKind op2 = specErrorKind op).
Proof.
  intros E.
  pose proof (invoke_outcome FileSystem op h) as Hout.
  destruct (hostFailure FileSystem op h) as [e0|].
  2: { destruct Hout as [h1 Hout]. congruence. }
  destruct Hout as (u & h1 & Hout & _). rewrite Hout in E. injection E as <- <-.
  split; [reflexivity|]. split; [eexists; reflexivity|].
  intros FileSystem2 op2 h2 e2 h2' E2 Hmsg.
  pose proof (invoke_outcome FileSystem2 op2 h2) as Hout2.
  destruct (hostFailure FileSystem2 op2 h2) as [e02|].
  2: { destruct Hout2 as [h3 Hout2]. congruence. }
  destruct Hout2 as (u2 & h3 & Hout2 & _). rewrite Hout2 in E2. injection E2 as <- <-.
  simpl in Hmsg. eapply template_determines_kind, Hmsg.
Qed.

Lemma errors_told_apart_by_message_witness :
  name (Error "Failed to read file at /a: boom") = "Error" /\
  exists rest, "Failed to read file at /a: boom" = "Failed to read file at /a" +:+ rest.
Proof.
  destruct (errors_told_apart_by_message
              (TraceHost.host (Some (MemHost.hostError "boom")))
              (OpReadFile "/a" None) []
              (Error "Failed to read file at /a: boom")
              [TraceHost.ReadAsString "/a" {[ "encoding" := VStr "utf8" ]}])
    as (Hname & Hmsg & _).
  - vm_compute. reflexivity.
  - split; [exact Hname | exact Hmsg].
Defined.

(** ** The in-memory host keeps the contracts *)

Module MemHostLaws.
Import MemHost.

Lemma read_is_pure : ReadIsPure host.
Proof.
  intros p o m. simpl. unfold read.
  destruct (nodes m !! p) as [[c t|t]|]; reflexivity.
Qed.

Lemma write_fulfilled p d o m m' :
  write p d o m = (Fulfilled tt, m') -> m' = put p (File d (clock m)) m.
Proof.
  unfold write.
  destruct (nodes m !! p) as [[c t|t]|]; [congruence|discriminate|].
  destruct (isDir m (dirname p)); [congruence|discriminate].
Qed.

Lemma reads_back_writes : ReadsBackWrites host (fun _ => True).
Proof.
  intros p d enc m m' _ E. simpl in *. apply write_fulfilled in E as ->.
  unfold read, put. simpl. rewrite lookup_insert_eq. reflexivity.
Qed.

Lemma overwrite_succeeds : OverwriteSucceeds host.
Proof.
  intros p d o m c. simpl. unfold read, write.
  destruct (nodes m !! p) as [[c' t|t]|]; simpl; [eauto|discriminate..].
Qed.

Lemma addDirs_keeps t up (ns : gmap string node) x n :
  ns !! x = Some n -> foldr (addDir t) ns up !! x = Some n.
Proof.
  intros Hx. induction up as [|a up IH]; [exact Hx|].
  cbn [foldr]. unfold addDir at 1.
  destruct (foldr (addDir t) ns up !! a) eqn:Ea; [exact IH|].
  rewrite lookup_insert_ne; [exact IH|]. intros <-. congruence.
Qed.

Lemma addDirs_adds t up (ns : gmap string node) x :
  In x up -> ns !! x = None -> foldr (addDir t) ns up !! x = Some (Dir t).
Proof.
  intros Hin Hx. induction up as [|a up IH]; [destruct Hin|].
  cbn [foldr]. unfold addDir at 1.
  destruct (decide (a = x)) as [->|Hne].
  - destruct (foldr (addDir t) ns up !! x) as [n|] eqn:Ea.
    + destruct (in_dec string_dec x up) as [Hup|Hup]; [rewrite IH in Ea by exact Hup; congruence|].
      exfalso. clear IH Hin. revert Ea. induction up as [|b up IHup]; cbn [foldr]; [congruence|].
      unfold addDir at 1. destruct (foldr (addDir t) ns up !! b) eqn:Eb.
      * apply IHup. intros Hx'. apply Hup. right. exact Hx'.
      * rewrite lookup_insert_ne; [apply IHup; intros Hx'; apply Hup; right; exact Hx'|].
        intros ->. apply Hup. left. reflexivity.
    + apply lookup_insert_eq.
  - destruct Hin as [->|Hin]; [congruence|].
    destruct (foldr (addDir t) ns up !! a) eqn:Ea; [exact (IH Hin)|].
    rewrite lookup_insert_ne by exact Hne. exact (IH Hin).
Qed.

Lemma absent_node p m : reportsAbsent host p m -> nodes m !! p = None.
Proof.
  intros (info & m' & Hinfo & Hex). cbn [getInfoAsync host] in Hinfo. unfold getInfo in Hinfo.
  destruct (nodes m !! p) as [[c t|t]|]; [| |reflexivity];
    injection Hinfo as <- _; vm_compute in Hex; discriminate.
Qed.

Lemma directory_node p m : reportsDirectory host p m -> exists t, nodes m !! p = Some (Dir t).
Proof.
  intros Hdir. destruct (Hdir None) as (info & m' & Hinfo & Hex & Hisdir).
  cbn [getInfoAsync host] in Hinfo. unfold getInfo in Hinfo.
  destruct (nodes m !! p) as [[c t|t]|]; [|eauto|];
    injection Hinfo as <- _; [vm_compute in Hisdir|vm_compute in Hex]; discriminate.
Qed.

Lemma node_directory p m t : nodes m !! p = Some (Dir t) -> reportsDirectory host p m.
Proof.
  intros Hnode options. cbn [getInfoAsync host]. unfold getInfo. rewrite Hnode.
  eexists _, _. split; [reflexivity|]. split; vm_compute; reflexivity.
Qed.

Lemma node_absent p m : nodes m !! p = None -> reportsAbsent host p m.
Proof.
  intros Hnode. cbn [getInfoAsync host]. unfold reportsAbsent, getInfo.
  cbn [getInfoAsync host]. unfold getInfo. rewrite Hnode.
  eexists _, _. split; [reflexivity|]. vm_compute. reflexivity.
Qed.

(** The check [missingIntermediates] on the nodes is sound for what the
    info reports. *)
Lemma observed_missing p m :
  missingIntermediates p m = true -> missingIntermediatesAt host p m.
Proof.
  unfold missingIntermediates. intros Hmiss.
  apply andb_prop in Hmiss as [Hmiss Hfiles]. apply andb_prop in Hmiss as [Habsent Hparent].
  apply bool_decide_eq_true in Habsent. apply negb_true_iff in Hparent, Hfiles.
  assert (Heach : forall q, In q (ancestors (String.length p) p) ->
                    reportsAbsent host q m \/ reportsDirectory host q m).
  { intros q Hin. destruct (nodes m !! q) as [[c t|t]|] eqn:Hq.
    - exfalso. assert (Hex : existsb (isFileNode m) (ancestors (String.length p) p) = true).
      { apply existsb_exists. exists q. split; [exact Hin|]. unfold isFileNode.
        rewrite Hq. reflexivity. }
      congruence.
    - right. eapply node_directory, Hq.
    - left. apply node_absent, Hq. }
  unfold isDir in Hparent. apply orb_false_elim in Hparent as [Hroot Hnode].
  apply bool_decide_eq_false in Hroot.
  assert (Hseg : exists others,
            ancestors (String.length p) p = dirname p :: others).
  { destruct p as [|c r]; [exfalso; apply Hroot; reflexivity|].
    cbn [String.length ancestors]. rewrite bool_decide_eq_false_2 by exact Hroot. eauto. }
  destruct Hseg as [others Hseg].
  split; [apply node_absent, Habsent|]. split; [|exact Heach].
  exists (dirname p), others. split; [exact Hseg|].
  destruct (Heach (dirname p)) as [Habs|Hdir]; [rewrite Hseg; left; reflexivity|exact Habs|].
  apply directory_node in Hdir as [t Hdir]. rewrite Hdir in Hnode. discriminate.
Qed.

Lemma creates_missing_intermediates : CreatesMissingIntermediates host.
Proof.
  intros p m (Habs & (parent & others & Hseg & Hpabs) & Hall).
  apply absent_node in Habs. apply absent_node in Hpabs.
  unfold intermediateSegments in *.
  set (up := ancestors (String.length p) p) in *.
  assert (Hparent : dirname p = parent /\ dirname p <> "").
  { subst up. destruct (String.length p) as [|n]; [discriminate|].
    cbn [ancestors] in Hseg. destruct (decide (dirname p = "")) as [E|E].
    - rewrite bool_decide_eq_true_2 in Hseg by exact E. discriminate.
    - rewrite bool_decide_eq_false_2 in Hseg by exact E. injection Hseg as Hd _. auto. }
  destruct Hparent as [<- Hroot].
  assert (HisDir : isDir m (dirname p) = false).
  { unfold isDir. rewrite bool_decide_eq_false_2 by exact Hroot. rewrite Hpabs. reflexivity. }
  assert (Hfiles : existsb (isFileNode m) up = false).
  { destruct (existsb (isFileNode m) up) eqn:E; [|reflexivity].
    apply existsb_exists in E as (q & Hin & Hfile). unfold isFileNode in Hfile.
    destruct (Hall q Hin) as [Hq|Hq].
    - apply absent_node in Hq. rewrite Hq in Hfile. discriminate.
    - apply directory_node in Hq as [t Hq]. rewrite Hq in Hfile. discriminate. }
  cbn [makeDirectoryAsync host]. unfold makeDirectory. rewrite Habs. split.
  - replace (truthy (get {[ "intermediates" := VBool true ]} "intermediates")) with true
      by (vm_compute; reflexivity).
    fold up. rewrite Hfiles. eexists. split; [reflexivity|].
    intros q Hq.
    change (foldr _ (nodes m) up) with (foldr (addDir (clock m)) (nodes m) up).
    destruct (decide (p = q)) as [<-|Hne].
    + eapply node_directory. cbn [nodes]. apply lookup_insert_eq.
    + destruct Hq as [->|Hin]; [congruence|].
      destruct (nodes m !! q) as [n|] eqn:Hnode.
      * destruct (Hall q Hin) as [Hq|Hq].
        -- apply absent_node in Hq. congruence.
        -- apply directory_node in Hq as [t Hq].
           eapply (node_directory _ _ t). cbn [nodes]. rewrite lookup_insert_ne by exact Hne.
           apply addDirs_keeps. exact Hq.
      * eapply node_directory. cbn [nodes]. rewrite lookup_insert_ne by exact Hne.
        apply addDirs_adds; assumption.
  - replace (truthy (get {[ "intermediates" := VBool false ]} "intermediates")) with false
      by (vm_compute; reflexivity).
    rewrite HisDir. eauto.
Qed.

End MemHostLaws.

(** ** Contents: append and the round trip *)

Section Contents.
Context {H : Type} (FileSystem : Host H).

Lemma readFile_fulfilled path encoding h content :
  fst (fs.readFile FileSystem path encoding h) = Fulfilled content <->
  fst (readAsStringAsync FileSystem path
         {[ "encoding" := fs.encodingOption FileSystem (fs.defaulted "utf8" encoding) ]} h)
    = Fulfilled content.
Proof.
  rewrite readFile_unfold.
  destruct (readAsStringAsync _ _ _ h) as [[c|e] h1]; cbn [fst]; split; congruence.
Qed.

Lemma writeFile_fulfilled path data encoding h h' :
  fs.writeFile FileSystem path data encoding h = (Fulfilled tt, h') <->
  writeAsStringAsync FileSystem path data
    {[ "encoding" := fs.encodingOption FileSystem (fs.defaulted "utf8" encoding) ]} h
    = (Fulfilled tt, h').
Proof.
  rewrite writeFile_unfold.
  destruct (writeAsStringAsync _ _ _ _ h) as [[[]|e] h1]; split; congruence.
Qed.

Lemma appendFile_unfold path data h :
  fs.appendFile FileSystem path data h =
  match fs.readFile FileSystem path None h with
  | (Fulfilled existingData, h1) =>
      match fs.writeFile FileSystem path (existingData +:+ data) None h1 with
      | (Fulfilled u, h2) => (Fulfilled u, h2)
      | (Rejected e, h2) =>
          (Rejected (Error ("Failed to append file at " +:+ path +:+ ": " +:+ message e)), h2)
      end
  | (Rejected e, h1) =>
      (Rejected (Error ("Failed to append file at " +:+ path +:+ ": " +:+ message e)), h1)
  end.
Proof.
  unfold fs.appendFile, try_catch, bind, throw.
  destruct (fs.readFile FileSystem path None h) as [[c|e] h1]; [|reflexivity].
  destruct (fs.writeFile FileSystem path (c +:+ data) None h1) as [[u|e] h2]; reflexivity.
Qed.

(** One append on a readable file: it succeeds, and the file then reads
    as the old contents followed by the data. *)
Lemma appendFile_extends supported path data h existing :
  ReadIsPure FileSystem -> ReadsBackWrites FileSystem supported ->
  OverwriteSucceeds FileSystem ->
  supported (fs.encodingOption FileSystem "utf8") ->
  fst (fs.readFile FileSystem path None h) = Fulfilled existing ->
  exists h', fs.appendFile FileSystem path data h = (Fulfilled tt, h') /\
             fst (fs.readFile FileSystem path None h') = Fulfilled (existing +:+ data).
Proof.
  intros Hpure Hback Hover Hutf8 Hread.
  apply readFile_fulfilled in Hread as Hhost.
  destruct (Hover path (existing +:+ data) _ h existing Hhost) as [h' Hwrite].
  exists h'. split.
  - rewrite appendFile_unfold, readFile_unfold.
    pose proof (Hpure path
      {[ "encoding" := fs.encodingOption FileSystem (fs.defaulted "utf8" None) ]} h) as Hsame.
    destruct (readAsStringAsync _ _ _ h) as [[c|e] h1]; cbn [fst snd] in *; [|discriminate].
    injection Hhost as ->. subst h1.
    apply (proj2 (writeFile_fulfilled path (existing +:+ data) None h h')) in Hwrite.
    rewrite Hwrite. reflexivity.
  - apply readFile_fulfilled. eapply Hback; [exact Hutf8|exact Hwrite].
Qed.

End Contents.

(** C3.  [appendFile] is [readFile] followed by [writeFile] of the contents
    read with the data appended (a failure of either is wrapped once more).
    So, on a host that reads back what it wrote as UTF-8 text, on a file
    that reads as the empty string, appending [a] and then [b] succeeds and
    leaves a file that reads as [a] followed by [b]. *)
Theorem append_is_read_then_write {H : Type} (FileSystem : Host H)
    (supported : value -> Prop) :
  (forall path data h,
     fs.appendFile FileSystem path data h =
     match fs.readFile FileSystem path None h with
     | (Fulfilled existingData, h1) =>
         match fs.writeFile FileSystem path (existingData +:+ data) None h1 with
         | (Fulfilled u, h2) => (Fulfilled u, h2)
         | (Rejected e, h2) =>
             (Rejected (Error ("Failed to append file at " +:+ path +:+ ": "
                               +:+ message e)), h2)
         end
     | (Rejected e, h1) =>
         (Rejected (Error ("Failed to append file at " +:+ path +:+ ": "
                           +:+ message e)), h1)
     end) /\
  (ReadIsPure FileSystem -> ReadsBackWrites FileSystem supported ->
   OverwriteSucceeds FileSystem -> supported (fs.encodingOption FileSystem "utf8") ->
   forall path a b h0,
     fst (fs.readFile FileSystem path None h0) = Fulfilled "" ->
     exists h1 h2,
       fs.appendFile FileSystem path a h0 = (Fulfilled tt, h1) /\
       fs.appendFile FileSystem path b h1 = (Fulfilled tt, h2) /\
       fst (fs.readFile FileSystem path None h2) = Fulfilled (a +:+ b)).
Proof.
  split; [apply appendFile_unfold|].
  intros Hpure Hback Hover Hutf8 path a b h0 Hempty.
  destruct (appendFile_extends FileSystem supported path a h0 ""
              Hpure Hback Hover Hutf8 Hempty) as (h1 & Happ1 & Hread1).
  rewrite append_nil_l in Hread1.
  destruct (appendFile_extends FileSystem supported path b h1 a
              Hpure Hback Hover Hutf8 Hread1) as (h2 & Happ2 & Hread2).
  exists h1, h2. auto.
Qed.

Lemma append_is_read_then_write_witness :
  let h0 := snd (fs.writeFile MemHost.host "/log" "" None MemHost.empty) in
  exists h1 h2,
    fs.appendFile MemHost.host "/log" "ab" h0 = (Fulfilled tt, h1) /\
    fs.appendFile MemHost.host "/log" "cd" h1 = (Fulfilled tt, h2) /\
    fst (fs.readFile MemHost.host "/log" None h2) = Fulfilled "abcd".
Proof.
  destruct (append_is_read_then_write MemHost.host (fun _ => True)) as [_ Hseq].
  apply (Hseq MemHostLaws.read_is_pure MemHostLaws.reads_back_writes
              MemHostLaws.overwrite_succeeds I "/log" "ab" "cd").
  vm_compute. reflexivity.
Defined.

(** C7.  On a host that reads back what it wrote under the encodings it
    supports, for every path and text that [writeFile] accepts and every
    encoding argument that resolves to a supported encoding, [readFile]
    with the same encoding argument then returns exactly the text. *)
Theorem write_then_read_round_trip {H : Type} (FileSystem : Host H)
    (supported : value -> Prop)
    (path text : string) (encoding : option string) (h h' : H) :
  ReadsBackWrites FileSystem supported ->
  supported (fs.encodingOption FileSystem (fs.defaulted "utf8" encoding)) ->
  fs.writeFile FileSystem path text encoding h = (Fulfilled tt, h') ->
  fst (fs.readFile FileSystem path encoding h') = Fulfilled text.
Proof.
  intros Hback Hsupported Hwrite.
  apply readFile_fulfilled. eapply Hback; [exact Hsupported|].
  apply writeFile_fulfilled, Hwrite.
Qed.

Lemma write_then_read_round_trip_witness :
  fst (fs.readFile MemHost.host "/notes.txt" (Some "UTF8")
         (snd (fs.writeFile MemHost.host "/notes.txt" "hello" (Some "UTF8") MemHost.empty)))
  = Fulfilled "hello".
Proof.
  eapply (write_then_read_round_trip MemHost.host (fun _ => True)
            "/notes.txt" "hello" (Some "UTF8") MemHost.empty).
  - exact MemHostLaws.reads_back_writes.
  - exact I.
  - vm_compute. reflexivity.
Defined.

(** ** Directories and stat *)

Section Directories.
Context {H : Type} (FileSystem : Host H).

(** What [exists] and [stat] say of a path the host reports as a
    directory. *)
Lemma reportsDirectory_seen path h :
  reportsDirectory FileSystem path h ->
  fst (fs.exists_ FileSystem path h) = Fulfilled (VBool true) /\
  exists st, fst (fs.stat FileSystem path h) = Fulfilled st /\
             isDirectory st tt = VBool true.
Proof.
  intros Hdir. split.
  - destruct (Hdir None) as (info & h' & Hinfo & Hex & _).
    unfold fs.exists_, try_catch, bind, ret. rewrite Hinfo, Hex. reflexivity.
  - destruct (Hdir (Some {[ "size" := VBool true ]})) as (info & h' & Hinfo & _ & Hisdir).
    unfold fs.stat, try_catch, bind, ret. rewrite Hinfo.
    eexists. split; [reflexivity|]. exact Hisdir.
Qed.

End Directories.

(** C8 as stated fails in one point: where intermediate segments are
    missing, [mkdir] with [recursive: false] does fail, but the error is a
    plain [Error], not a [DirectoryCreateError]. *)
Lemma mkdir_failure_is_a_plain_error :
  missingIntermediatesAt MemHost.host "/a/b/c" MemHost.empty /\
  exists e,
    fst (fs.mkdir MemHost.host "/a/b/c" (Some {[ "recursive" := VBool false ]}) MemHost.empty)
      = Rejected e /\
    name e = "Error" /\
    name e <> specErrorKind (OpMkdir "/a/b/c" (Some {[ "recursive" := VBool false ]})).
Proof.
  split.
  - apply MemHostLaws.observed_missing. vm_compute. reflexivity.
  - eexists. split; [vm_compute; reflexivity|]. split; [reflexivity|]. discriminate.
Qed.

(** C8 (amended).  An omitted options argument stands for
    [recursive: true].  On a host that creates missing intermediates on
    request, at a path whose intermediate segments are missing, [mkdir]
    with the options omitted or with [recursive: true] succeeds, and
    afterwards the path and every intermediate segment exist as
    directories (so [exists] and [stat] report); with [recursive: false]
    it fails with a plain [Error] (there is no [DirectoryCreateError])
    whose message is [Failed to create directory at <path>: ] followed by
    the host's message. *)
Theorem mkdir_recursive_creates_intermediates {H : Type} (FileSystem : Host H)
    (path : string) (h : H) :
  CreatesMissingIntermediates FileSystem ->
  missingIntermediatesAt FileSystem path h ->
  fs.mkdir FileSystem path None h
    = fs.mkdir FileSystem path (Some {[ "recursive" := VBool true ]}) h /\
  (exists h',
     fs.mkdir FileSystem path None h = (Fulfilled tt, h') /\
     forall q, q = path \/ In q (intermediateSegments path) ->
       fst (fs.exists_ FileSystem q h') = Fulfilled (VBool true) /\
       exists st, fst (fs.stat FileSystem q h') = Fulfilled st /\
                  isDirectory st tt = VBool true) /\
  (exists e h',
     makeDirectoryAsync FileSystem path {[ "intermediates" := VBool false ]} h
       = (Rejected e, h') /\
     fs.mkdir FileSystem path (Some {[ "recursive" := VBool false ]}) h
       = (Rejected {| name := "Error";
                      message := "Failed to create directory at " +:+ path +:+ ": "
                                 +:+ message e |}, h')).
Proof.
  intros Hhost Hmiss.
  destruct (Hhost path h Hmiss) as [(h1 & Hyes & Hdirs) (e & h2 & Hno)].
  assert (Htrue : get ({[ "recursive" := VBool true ]} : obj) "recursive" = VBool true)
    by (unfold get; rewrite lookup_singleton_eq; reflexivity).
  assert (Hfalse : get ({[ "recursive" := VBool false ]} : obj) "recursive" = VBool false)
    by (unfold get; rewrite lookup_singleton_eq; reflexivity).
  unfold fs.mkdir, fs.defaulted, try_catch, throw. rewrite Htrue, Hfalse, Hyes, Hno.
  split; [reflexivity|]. split.
  - exists h1. split; [reflexivity|].
    intros q Hq. apply reportsDirectory_seen, Hdirs, Hq.
  - exists e, h2. split; reflexivity.
Qed.

Lemma mkdir_recursive_creates_intermediates_witness :
  (exists m',
     fs.mkdir MemHost.host "/a/b/c" None MemHost.empty = (Fulfilled tt, m') /\
     fst (fs.exists_ MemHost.host "/a" m') = Fulfilled (VBool true) /\
     fst (fs.exists_ MemHost.host "/a/b" m') = Fulfilled (VBool true) /\
     fst (fs.exists_ MemHost.host "/a/b/c" m') = Fulfilled (VBool true)) /\
  (exists e m',
     fs.mkdir MemHost.host "/a/b/c" (Some {[ "recursive" := VBool false ]}) MemHost.empty
       = (Rejected {| name := "Error";
                      message := "Failed to create directory at " +:+ "/a/b/c" +:+ ": "
                                 +:+ message e |}, m')).
Proof.
  destruct (mkdir_recursive_creates_intermediates MemHost.host "/a/b/c" MemHost.empty
              MemHostLaws.creates_missing_intermediates)
    as (_ & (m' & Hmk & Hdirs) & e & m'' & _ & Hplain).
  - apply MemHostLaws.observed_missing. vm_compute. reflexivity.
  - split.
    + exists m'. split; [exact Hmk|].
      split; [apply Hdirs; right; vm_compute; auto|].
      split; [apply Hdirs; right; vm_compute; auto|].
      apply Hdirs. left. reflexivity.
    + exists e, m''. exact Hplain.
Defined.

(** The intermediate directories do get created on the in-memory host. *)
Example mkdir_creates_intermediates :
  let m := snd (fs.mkdir MemHost.host "/a/b/c" None MemHost.empty) in
  MemHost.isDir m "/a" = true /\ MemHost.isDir m "/a/b" = true /\
  MemHost.isDir m "/a/b/c" = true.
Proof. vm_compute. repeat split. Qed.

(** C9.  The code falls short of the claim in one point, [isFile()].  The
    descriptor's [isFile] reads the property [isFile] of the host's info
    object; an info object without that property, as [expo-file-system]
    documents it, makes [isFile()] [undefined], not [true], also for a file
    that was just written.  The other three, [isDirectory()], [size] and
    [modificationTime], are the host's, read from the answer to a request
    with [size: true]. *)
Theorem stat_isFile_is_undefined {H : Type} (FileSystem : Host H)
    (path : string) (h h' : H) (info : obj) :
  getInfoAsync FileSystem path (Some {[ "size" := VBool true ]}) h = (Fulfilled info, h') ->
  info !! "isFile" = None ->
  exists st,
    fs.stat FileSystem path h = (Fulfilled st, h') /\
    isFile st tt = VUndef /\
    isFile st tt <> VBool true /\
    isDirectory st tt = get info "isDirectory" /\
    size st = get info "size" /\
    modificationTime st = get info "modificationTime".
Proof.
  intros E Hno. unfold fs.stat, try_catch, bind, ret. rewrite E.
  eexists. split; [reflexivity|]. cbn [isFile isDirectory size modificationTime].
  unfold get at 1 2. rewrite Hno. repeat split. discriminate.
Qed.

Lemma stat_isFile_is_undefined_witness :
  snd (fs.writeFile MemHost.host "/a.txt" "hello" None MemHost.empty)
    = MemHost.MkMem {[ "/a.txt" := MemHost.File "hello" 0 ]} 1 /\
  exists st,
    fs.stat MemHost.host "/a.txt" (MemHost.MkMem {[ "/a.txt" := MemHost.File "hello" 0 ]} 1)
      = (Fulfilled st, MemHost.MkMem {[ "/a.txt" := MemHost.File "hello" 0 ]} 1) /\
    isFile st tt = VUndef /\
    isFile st tt <> VBool true /\
    isDirectory st tt = VBool false /\
    size st = VNum 5 /\
    modificationTime st = VNum 0.
Proof.
  split; [vm_compute; reflexivity|].
  destruct (stat_isFile_is_undefined MemHost.host "/a.txt"
              (MemHost.MkMem {[ "/a.txt" := MemHost.File "hello" 0 ]} 1)
              (MemHost.MkMem {[ "/a.txt" := MemHost.File "hello" 0 ]} 1)
              {[ "size" := VNum 5; "exists" := VBool true; "uri" := VStr "/a.txt";
                 "isDirectory" := VBool false; "modificationTime" := VNum 0 ]})
    as (st & Hstat & Hundef & Hnot & Hdir & Hsize & Hmtime).
  - vm_compute. reflexivity.
  - vm_compute. reflexivity.
  - exists st. split; [exact Hstat|]. split; [exact Hundef|]. split; [exact Hnot|].
    split; [rewrite Hdir; vm_compute; reflexivity|].
    split; [rewrite Hsize; vm_compute; reflexivity|].
    rewrite Hmtime. vm_compute. reflexivity.
Defined.

(** The descriptor only relays the host's info object: a property the host
    does not report reads as [undefined]. *)
Lemma stat_relays_info {H : Type} (FileSystem : Host H) path h info h' :
  getInfoAsync FileSystem path (Some {[ "size" := VBool true ]}) h = (Fulfilled info, h') ->
  exists st,
    fs.stat FileSystem path h = (Fulfilled st, h') /\
    isFile st tt = get info "isFile" /\
    isDirectory st tt = get info "isDirectory" /\
    size st = get info "size" /\
    modificationTime st = get info "modificationTime".
Proof.
  intros E. unfold fs.stat, try_catch, bind, ret. rewrite E.
  eexists. split; [reflexivity|]. repeat split.
Qed.

(** * Further properties of the facade *)

(** ** The calls each method makes *)

Section Calls.
Context {H : Type} (inner : Host H).

Lemma get_from (a b : value) : get ({[ "from" := a; "to" := b ]} : obj) "from" = a.
Proof. unfold get. rewrite lookup_insert_eq. reflexivity. Qed.

Lemma get_to (a b : value) : get ({[ "from" := a; "to" := b ]} : obj) "to" = b.
Proof.
  unfold get. rewrite lookup_insert_ne by discriminate.
  rewrite lookup_singleton_eq. reflexivity.
Qed.

(** X1.  Every method other than [appendFile] makes exactly one host call
    per invocation, whether the call succeeds or fails (nothing is checked
    beforehand, nothing is retried), and hands the host the caller's
    path or paths unchanged.  This holds for [exists] too. *)
Theorem one_host_call_per_operation (op : operation) (h : H) (log : list TraceHost.call) :
  (forall path,
     exists c, snd (snd (fs.exists_ (Recorder.host inner) path (h, log))) = (log ++ [c])%list /\
               callPaths c = [VStr path]) /\
  match op with
  | OpAppendFile _ _ => True
  | _ =>
      exists c, snd (snd (invoke (Recorder.host inner) op (h, log))) = (log ++ [c])%list /\
                callPaths c = pathsOf op
  end.
Proof.
  split.
  - intros path. unfold fs.exists_, try_catch, bind, ret. cbn [getInfoAsync Recorder.host].
    unfold Recorder.record. cbn [fst snd].
    destruct (getInfoAsync inner path None h) as [[info|e] h']; eexists; split; reflexivity.
  - destruct op; [| | exact I | | | | | |];
      unfold invoke, settle_only, fs.readFile, fs.writeFile, fs.unlink, fs.rename, fs.mkdir,
        fs.readdir, fs.stat, fs.copyFile, try_catch, bind, ret, throw;
      cbn [readAsStringAsync writeAsStringAsync deleteAsync moveAsync copyAsync
           makeDirectoryAsync readDirectoryAsync getInfoAsync Recorder.host];
      unfold Recorder.record; cbn [fst snd];
      match goal with
      | |- context [match ?f h with _ => _ end] => destruct (f h) as [[?|?] ?]
      end;
      eexists; (split; [reflexivity|]); cbn [callPaths pathsOf];
      rewrite ?get_from, ?get_to; reflexivity.
Qed.
End Calls.

(** ** appendFile, call by call *)

Section AppendCalls.
Context {H : Type} (inner : Host H).

(** X2.  When the read that [appendFile] starts with fails, no write is
    attempted: the host has received the read and nothing else, it is left
    as the read left it, and the error thrown carries the host's message
    behind two prefixes, [appendFile]'s and [readFile]'s. *)
Theorem appendFile_read_failure (path data : string) (h h' : H)
    (log : list TraceHost.call) (e : error) :
  let utf8 : obj := {[ "encoding" := fs.encodingOption inner "utf8" ]} in
  readAsStringAsync inner path utf8 h = (Rejected e, h') ->
  fs.appendFile (Recorder.host inner) path data (h, log)
    = (Rejected (Error ("Failed to append file at " +:+ path
                        +:+ ": Failed to read file at " +:+ path +:+ ": " +:+ message e)),
       (h', (log ++ [TraceHost.ReadAsString path utf8])%list)).
Proof.
  intros utf8 Hread.
  rewrite appendFile_unfold, readFile_unfold.
  cbn [readAsStringAsync Recorder.host fs.defaulted]. unfold Recorder.record. cbn [fst snd].
  change (fs.encodingOption (Recorder.host inner) "utf8") with (fs.encodingOption inner "utf8").
  fold utf8. rewrite Hread. reflexivity.
Qed.

(** X3.  When the read succeeds and the write fails, [appendFile] has made
    both calls, leaves the host as the failed write left it, and throws the
    host's message behind [appendFile]'s and [writeFile]'s prefixes. *)
Theorem appendFile_write_failure (path data existing : string) (h h1 h2 : H)
    (log : list TraceHost.call) (e : error) :
  let utf8 : obj := {[ "encoding" := fs.encodingOption inner "utf8" ]} in
  readAsStringAsync inner path utf8 h = (Fulfilled existing, h1) ->
  writeAsStringAsync inner path (existing +:+ data) utf8 h1 = (Rejected e, h2) ->
  fs.appendFile (Recorder.host inner) path data (h, log)
    = (Rejected (Error ("Failed to append file at " +:+ path
                        +:+ ": Failed to write file at " +:+ path +:+ ": " +:+ message e)),
       (h2, (log ++ [TraceHost.ReadAsString path utf8;
                     TraceHost.WriteAsString path (existing +:+ data) utf8])%list)).
Proof.
  intros utf8 Hread Hwrite.
  rewrite appendFile_unfold, readFile_unfold.
  cbn [readAsStringAsync Recorder.host fs.defaulted]. unfold Recorder.record. cbn [fst snd].
  change (fs.encodingOption (Recorder.host inner) "utf8") with (fs.encodingOption inner "utf8").
  fold utf8. rewrite Hread. rewrite writeFile_unfold.
  cbn [writeAsStringAsync Recorder.host fs.defaulted]. unfold Recorder.record. cbn [fst snd].
  change (fs.encodingOption (Recorder.host inner) "utf8") with (fs.encodingOption inner "utf8").
  fold utf8. rewrite Hwrite. rewrite <- app_assoc. reflexivity.
Qed.

(** X4.  A successful [appendFile] is a read followed by one write of the
    whole file: the data handed to the host is everything that was read
    followed by the new data, under the UTF8 option for both calls. *)
Theorem appendFile_rewrites_whole_file (path data existing : string) (h h1 h2 : H)
    (log : list TraceHost.call) :
  let utf8 : obj := {[ "encoding" := fs.encodingOption inner "utf8" ]} in
  readAsStringAsync inner path utf8 h = (Fulfilled existing, h1) ->
  writeAsStringAsync inner path (existing +:+ data) utf8 h1 = (Fulfilled tt, h2) ->
  fs.appendFile (Recorder.host inner) path data (h, log)
    = (Fulfilled tt,
       (h2, (log ++ [TraceHost.ReadAsString path utf8;
                     TraceHost.WriteAsString path (existing +:+ data) utf8])%list)).
Proof.
  intros utf8 Hread Hwrite.
  rewrite appendFile_unfold, readFile_unfold.
  cbn [readAsStringAsync Recorder.host fs.defaulted]. unfold Recorder.record. cbn [fst snd].
  change (fs.encodingOption (Recorder.host inner) "utf8") with (fs.encodingOption inner "utf8").
  fold utf8. rewrite Hread. rewrite writeFile_unfold.
  cbn [writeAsStringAsync Recorder.host fs.defaulted]. unfold Recorder.record. cbn [fst snd].
  change (fs.encodingOption (Recorder.host inner) "utf8") with (fs.encodingOption inner "utf8").
  fold utf8. rewrite Hwrite. rewrite <- app_assoc. reflexivity.
Qed.

Lemma append_nil_r (s : string) : s +:+ "" = s.
Proof. induction s as [|c r IH]; [reflexivity|]. rewrite append_cons, IH. reflexivity. Qed.

(** X5.  On a host that reads back the UTF-8 text it wrote, appending a
    list of chunks one after the other to a readable file succeeds and
    leaves a file that reads as the old contents followed by the chunks in
    order; started from a fresh [writeFile] of [text], it reads as [text]
    followed by the chunks. *)
Theorem appendAll_concatenates (supported : value -> Prop) (path : string)
    (chunks : list string) :
  ReadIsPure inner -> ReadsBackWrites inner supported -> OverwriteSucceeds inner ->
  supported (fs.encodingOption inner "utf8") ->
  (forall existing h,
     fst (fs.readFile inner path None h) = Fulfilled existing ->
     exists h',
       appendAll inner path chunks h = (Fulfilled tt, h') /\
       fst (fs.readFile inner path None h') = Fulfilled (existing +:+ joined chunks)) /\
  (forall text h h0,
     fs.writeFile inner path text None h = (Fulfilled tt, h0) ->
     exists h',
       appendAll inner path chunks h0 = (Fulfilled tt, h') /\
       fst (fs.readFile inner path None h') = Fulfilled (text +:+ joined chunks)).
Proof.
  intros Hpure Hback Hover Hutf8.
  assert (Hall : forall existing h,
     fst (fs.readFile inner path None h) = Fulfilled existing ->
     exists h',
       appendAll inner path chunks h = (Fulfilled tt, h') /\
       fst (fs.readFile inner path None h') = Fulfilled (existing +:+ joined chunks)).
  { induction chunks as [|chunk rest IH]; intros existing h Hread.
    - exists h. split; [reflexivity|]. cbn [joined]. rewrite append_nil_r. exact Hread.
    - destruct (appendFile_extends inner supported path chunk h existing
                  Hpure Hback Hover Hutf8 Hread) as (h1 & Happ & Hread1).
      destruct (IH _ _ Hread1) as (h' & Hrest & Hread').
      exists h'. split.
      + cbn [appendAll]. unfold bind. rewrite Happ. exact Hrest.
      + cbn [joined]. rewrite <- append_assoc. exact Hread'. }
  split; [exact Hall|].
  intros text h h0 Hwrite. apply Hall.
  apply readFile_fulfilled. eapply Hback; [exact Hutf8|].
  apply writeFile_fulfilled in Hwrite. exact Hwrite.
Qed.

End AppendCalls.

Lemma appendFile_read_failure_witness :
  fs.appendFile (Recorder.host MemHost.host) "/nope" "x" (MemHost.empty, [])
  = (Rejected (Error ("Failed to append file at /nope: "
                      +:+ "Failed to read file at /nope: /nope does not exist")),
     (MemHost.empty, [TraceHost.ReadAsString "/nope" {[ "encoding" := VStr "utf8" ]}])).
Proof.
  apply (appendFile_read_failure MemHost.host "/nope" "x" MemHost.empty MemHost.empty []
           (MemHost.hostError "/nope does not exist")).
  vm_compute. reflexivity.
Defined.

Lemma appendFile_write_failure_witness :
  fs.appendFile (Recorder.host ReadOnlyHost.host) "/etc/motd" " more" ("hello", [])
  = (Rejected (Error ("Failed to append file at /etc/motd: "
                      +:+ "Failed to write file at /etc/motd: read-only file system")),
     ("hello",
      [TraceHost.ReadAsString "/etc/motd" {[ "encoding" := VStr "utf8" ]};
       TraceHost.WriteAsString "/etc/motd" "hello more" {[ "encoding" := VStr "utf8" ]}])).
Proof.
  apply (appendFile_write_failure ReadOnlyHost.host "/etc/motd" " more" "hello"
           "hello" "hello" "hello" [] ReadOnlyHost.refused); reflexivity.
Defined.

Lemma appendFile_rewrites_whole_file_witness :
  fs.appendFile (Recorder.host MemHost.host) "/log" "cd"
    (MemHost.MkMem {[ "/log" := MemHost.File "ab" 0 ]} 1, [])
  = (Fulfilled tt,
     (MemHost.MkMem {[ "/log" := MemHost.File "abcd" 1 ]} 2,
      [TraceHost.ReadAsString "/log" {[ "encoding" := VStr "utf8" ]};
       TraceHost.WriteAsString "/log" "abcd" {[ "encoding" := VStr "utf8" ]}])).
Proof.
  apply (appendFile_rewrites_whole_file MemHost.host "/log" "cd" "ab"
           (MemHost.MkMem {[ "/log" := MemHost.File "ab" 0 ]} 1)
           (MemHost.MkMem {[ "/log" := MemHost.File "ab" 0 ]} 1)
           (MemHost.MkMem {[ "/log" := MemHost.File "abcd" 1 ]} 2) []);
    vm_compute; reflexivity.
Defined.

Lemma appendAll_concatenates_witness :
  exists m',
    appendAll MemHost.host "/log" ["ab"; "cd"; "ef"]
      (MemHost.MkMem {[ "/log" := MemHost.File ">" 0 ]} 1) = (Fulfilled tt, m') /\
    fst (fs.readFile MemHost.host "/log" None m') = Fulfilled ">abcdef".
Proof.
  destruct (appendAll_concatenates MemHost.host (fun _ => True) "/log" ["ab"; "cd"; "ef"]
              MemHostLaws.read_is_pure MemHostLaws.reads_back_writes
              MemHostLaws.overwrite_succeeds I) as [Hall _].
  apply (Hall ">" (MemHost.MkMem {[ "/log" := MemHost.File ">" 0 ]} 1)).
  vm_compute. reflexivity.
Defined.

(** ** The pseudo-synchronous variants, after the fact *)

(** X6.  [existsSync] does the work of [exists] and throws the answer
    away: once the loop has run (three turns at most, on a host that
    settles late or early), the variable it returned too soon holds exactly
    what [exists] resolves to, the host is in the state [exists] leaves it
    in, nothing is left to run and no rejection is unhandled. *)
Theorem existsSync_settles_like_exists {H : Type} (FileSystem : Host H)
    (early : bool) (path : string) (h : H) :
  let m := Loop.runLoop 3 (snd (Loop.existsSync FileSystem path (Loop.boot early h))) in
  (Fulfilled (Loop.readVar 0 m), Loop.hostState m) = fs.exists_ FileSystem path h /\
  Loop.step m = None /\
  Loop.unhandledRejections m = [].
Proof.
  unfold fs.exists_, try_catch, bind, ret, Loop.existsSync, Loop.hostCall.
  destruct early; cbn -[get];
    destruct (getInfoAsync FileSystem path None h) as [[info|e] h'] eqn:E;
    cbn -[get]; rewrite ?E; cbn -[get];
    unfold Loop.readVar; cbn -[get]; rewrite !lookup_insert_eq; repeat split.
Qed.

(** X7.  [readFileSync] does the work of [readFile] and throws the outcome
    away: once the loop has run, the host is in the state [readFile] leaves
    it in; if [readFile] resolves to a text, the variable holds that text;
    if [readFile] throws, the variable is still the empty string and the
    very error [readFile] throws sits in a rejected promise that nothing
    handles. *)
Theorem readFileSync_settles_like_readFile {H : Type} (FileSystem : Host H)
    (early : bool) (path : string) (encoding : option string) (h : H) :
  let m := Loop.runLoop 3
             (snd (Loop.readFileSync FileSystem path encoding (Loop.boot early h))) in
  Loop.hostState m = snd (fs.readFile FileSystem path encoding h) /\
  Loop.step m = None /\
  match fst (fs.readFile FileSystem path encoding h) with
  | Fulfilled data => Loop.readVar 0 m = VStr data /\ Loop.unhandledRejections m = []
  | Rejected e => Loop.readVar 0 m = VStr "" /\ Loop.unhandledRejections m = [e]
  end.
Proof.
  rewrite readFile_unfold. unfold Loop.readFileSync, Loop.hostCall.
  set (o := ({[ "encoding" := _ ]} : obj)). clearbody o.
  destruct early; cbn;
    destruct (readAsStringAsync FileSystem path o h) as [[data|e] h'] eqn:E;
    cbn; rewrite ?E; cbn;
    unfold Loop.readVar; cbn; rewrite ?lookup_insert_eq; repeat split.
Qed.

(** ** Options and descriptors *)

Lemma isLowerChar_upperChar (c : ascii) : isLowerChar (upperChar c) = false.
Proof. destruct c as [[] [] [] [] [] [] [] []]; vm_compute; reflexivity. Qed.

Lemma hasLowerCase_toUpperCase (s : string) : hasLowerCase (toUpperCase s) = false.
Proof.
  induction s as [|c r IH]; [reflexivity|].
  cbn [toUpperCase hasLowerCase]. rewrite isLowerChar_upperChar, IH. reflexivity.
Qed.

(** X8.  If the host's table has a usable [UTF8] entry, the encoding
    option sent to the host is usable for every encoding name; if it has
    not, the option is usable exactly for the recognised names, and an
    unrecognised name sends the unusable entry. *)
Theorem encoding_option_usable {H : Type} (FileSystem : Host H) :
  (truthy (get (EncodingType FileSystem) "UTF8") = true ->
   forall encoding, truthy (fs.encodingOption FileSystem encoding) = true) /\
  (truthy (get (EncodingType FileSystem) "UTF8") = false ->
   forall encoding,
     truthy (fs.encodingOption FileSystem encoding) = recognised FileSystem encoding).
Proof.
  unfold fs.encodingOption, recognised, Js.or. split; intros Hutf8 encoding;
    destruct (truthy (get (EncodingType FileSystem) (toUpperCase encoding))) eqn:E;
    congruence.
Qed.

Lemma encoding_option_usable_witness :
  truthy (fs.encodingOption MemHost.host "no-such-encoding") = true.
Proof.
  destruct (encoding_option_usable MemHost.host) as [Husable _].
  apply Husable. vm_compute. reflexivity.
Defined.

(** X9.  The name is upper-cased before the lookup, so an entry of the
    host's table whose key contains a lower-case letter is never selected.
    On a host whose keys other than [UTF8] all contain one (a table keyed
    [UTF8] and [Base64], say), every encoding name resolves to the [UTF8]
    entry, ["base64"] included. *)
Theorem lower_case_keys_are_unreachable {H : Type} (FileSystem : Host H) :
  (forall encoding key, hasLowerCase key = true -> toUpperCase encoding <> key) /\
  ((forall key v, EncodingType FileSystem !! key = Some v ->
      key = "UTF8" \/ hasLowerCase key = true) ->
   forall encoding,
     fs.encodingOption FileSystem encoding = get (EncodingType FileSystem) "UTF8").
Proof.
  assert (Hne : forall encoding key, hasLowerCase key = true -> toUpperCase encoding <> key).
  { intros encoding key Hlow <-. rewrite hasLowerCase_toUpperCase in Hlow. discriminate. }
  split; [exact Hne|].
  intros Hkeys encoding. unfold fs.encodingOption, get at 1.
  destruct (EncodingType FileSystem !! toUpperCase encoding) as [v|] eqn:E.
  - destruct (Hkeys _ _ E) as [Hk|Hlow].
    + unfold get. rewrite <- Hk, E. apply or_same.
    + exfalso. exact (Hne encoding _ Hlow eq_refl).
  - reflexivity.
Qed.

Lemma lower_case_keys_are_unreachable_witness :
  fs.encodingOption MemHost.host "base64" = VStr "utf8".
Proof.
  destruct (lower_case_keys_are_unreachable MemHost.host) as [_ Hall].
  rewrite Hall.
  - vm_compute. reflexivity.
  - intros key v Hk. simpl in Hk.
    apply lookup_insert_Some in Hk as [[<- _]|[_ Hk]]; [left; reflexivity|].
    apply lookup_singleton_Some in Hk as [<- _]. right. reflexivity.
Defined.

(** X10.  [mkdir] reads one property of its options, [recursive], and
    hands its value to the host as [intermediates] as it is: other
    properties are ignored, and the value is neither checked nor turned
    into a boolean. *)
Theorem mkdir_relays_recursive_verbatim {H : Type} (FileSystem : Host H)
    (path : string) (options : obj) (h : H) (log : list TraceHost.call) :
  fs.mkdir FileSystem path (Some options) h
    = fs.mkdir FileSystem path (Some {[ "recursive" := get options "recursive" ]}) h /\
  snd (snd (fs.mkdir (Recorder.host FileSystem) path (Some options) (h, log)))
    = (log ++ [TraceHost.MakeDirectory path
                 {[ "intermediates" := get options "recursive" ]}])%list.
Proof.
  assert (Hget : get ({[ "recursive" := get options "recursive" ]} : obj) "recursive"
                 = get options "recursive")
    by (unfold get at 1; rewrite lookup_singleton_eq; reflexivity).
  split.
  - unfold fs.mkdir. cbn [fs.defaulted]. rewrite Hget. reflexivity.
  - unfold fs.mkdir, try_catch, throw. cbn [fs.defaulted makeDirectoryAsync Recorder.host].
    unfold Recorder.record. cbn [fst snd].
    destruct (makeDirectoryAsync FileSystem path _ h) as [[u|e] h']; reflexivity.
Qed.

(** X11.  [stat] succeeds whenever the host answers the info request,
    whatever the answer says, also for a path the host reports as not
    existing: the descriptor relays [isFile], [isDirectory], [size] and
    [modificationTime], and a property the host left out reads as
    [undefined]. *)
Theorem stat_ignores_exists {H : Type} (FileSystem : Host H) (path : string) (h h' : H)
    (info : obj) :
  getInfoAsync FileSystem path (Some {[ "size" := VBool true ]}) h = (Fulfilled info, h') ->
  exists st,
    fs.stat FileSystem path h = (Fulfilled st, h') /\
    (isFile st tt, isDirectory st tt, size st, modificationTime st)
      = (get info "isFile", get info "isDirectory", get info "size",
         get info "modificationTime") /\
    (info !! "isFile" = None -> isFile st tt = VUndef) /\
    (info !! "size" = None -> size st = VUndef) /\
    (info !! "modificationTime" = None -> modificationTime st = VUndef).
Proof.
  intros E. unfold fs.stat, try_catch, bind, ret. rewrite E.
  eexists. split; [reflexivity|]. cbn [isFile isDirectory size modificationTime].
  split; [reflexivity|]. unfold get. repeat split; intros ->; reflexivity.
Qed.

Lemma stat_ignores_exists_witness :
  exists st,
    fs.stat MemHost.host "/nowhere" MemHost.empty = (Fulfilled st, MemHost.empty) /\
    isFile st tt = VUndef /\ size st = VUndef /\ modificationTime st = VUndef.
Proof.
  destruct (stat_ignores_exists MemHost.host "/nowhere" MemHost.empty MemHost.empty
              {[ "exists" := VBool false; "uri" := VStr "/nowhere";
                 "isDirectory" := VBool false ]})
    as (st & Hstat & _ & HisFile & Hsize & Hmtime).
  - vm_compute. reflexivity.
  - exists st. split; [exact Hstat|].
    split; [apply HisFile|split; [apply Hsize|apply Hmtime]]; vm_compute; reflexivity.
Defined.

(** ** Messages *)

Section Messages.
Context {H : Type}.

(** The exact message of a failed operation: its template, a colon, and
    the host's message, which [appendFile] finds already wrapped by
    [readFile] or [writeFile]. *)
Lemma invoke_rejected_message (FileSystem : Host H) (op : operation) (h h' : H) (e : error) :
  invoke FileSystem op h = (Rejected e, h') ->
  exists e0 inner,
    hostFailure FileSystem op h = Some e0 /\
    message e = template op +:+ ": " +:+ inner +:+ message e0 /\
    match op with
    | OpAppendFile p _ =>
        (inner = "Failed to read file at " +:+ p +:+ ": " /\
         failsAtRead FileSystem op h = true) \/
        (inner = "Failed to write file at " +:+ p +:+ ": " /\
         failsAtRead FileSystem op h = false)
    | _ => inner = "" /\ failsAtRead FileSystem op h = false
    end.
Proof.
  destruct op; cbn [invoke hostFailure template failsAtRead].
  3: {
    rewrite appendFile_unfold, readFile_unfold. cbn [fs.defaulted].
    destruct (readAsStringAsync _ _ _ h) as [[c|e0] h1].
    - rewrite writeFile_unfold. cbn [fs.defaulted].
      destruct (writeAsStringAsync _ _ _ _ h1) as [[[]|e0] h2]; [discriminate|].
      intros [= <- <-]. exists e0, ("Failed to write file at " +:+ path +:+ ": ").
      split; [reflexivity|]. split; [|right; split; reflexivity].
      cbn [message Error]. rewrite !append_assoc. reflexivity.
    - intros [= <- <-]. exists e0, ("Failed to read file at " +:+ path +:+ ": ").
      split; [reflexivity|]. split; [|left; split; reflexivity].
      cbn [message Error]. rewrite !append_assoc. reflexivity. }
  all: unfold fs.readFile, fs.writeFile, fs.unlink, fs.rename, fs.mkdir,
      fs.readdir, fs.stat, fs.copyFile, settle_only, try_catch, bind, ret, throw.
  all: match goal with
       | |- context [rejection (?f ?h)] => destruct (f h) as [[?|?] ?]
       end; cbn [rejection]; intros [= <- <-] || discriminate.
  all: eexists _, ""; split; [reflexivity|]; split; [|split; reflexivity].
  all: cbn [message Error]; rewrite ?append_assoc; reflexivity.
Qed.

(** X12.  The host's message can be read back from the message of the
    error an operation throws: two failures of the same call with the same
    message come from host errors with the same message, and, for
    [appendFile], from the same step: both from the read or both from the
    write. *)
Theorem host_message_recoverable (FileSystem1 FileSystem2 : Host H) (op : operation)
    (h1 h1' h2 h2' : H) (e1 e2 : error) :
  invoke FileSystem1 op h1 = (Rejected e1, h1') ->
  invoke FileSystem2 op h2 = (Rejected e2, h2') ->
  message e1 = message e2 ->
  exists e01 e02,
    hostFailure FileSystem1 op h1 = Some e01 /\
    hostFailure FileSystem2 op h2 = Some e02 /\
    message e01 = message e02 /\
    failsAtRead FileSystem1 op h1 = failsAtRead FileSystem2 op h2.
Proof.
  intros E1 E2 Hmsg.
  destruct (invoke_rejected_message _ _ _ _ _ E1) as (e01 & in1 & Hf1 & M1 & I1).
  destruct (invoke_rejected_message _ _ _ _ _ E2) as (e02 & in2 & Hf2 & M2 & I2).
  exists e01, e02. split; [exact Hf1|]. split; [exact Hf2|].
  rewrite M1, M2 in Hmsg.
  apply (inj (String.app (template op))) in Hmsg.
  apply (inj (String.app ": ")) in Hmsg.
  destruct op;
    try (destruct I1 as [-> R1], I2 as [-> R2]; split; [exact Hmsg|congruence]).
  destruct I1 as [[-> R1] | [-> R1]], I2 as [[-> R2] | [-> R2]];
    rewrite !append_assoc, ?append_cons, ?append_nil_l in Hmsg.
  - apply (inj (String.app "Failed to read file at ")) in Hmsg.
    apply (inj (String.app path)) in Hmsg.
    apply (inj (String.app ": ")) in Hmsg. split; [exact Hmsg|congruence].
  - discriminate Hmsg.
  - discriminate Hmsg.
  - apply (inj (String.app "Failed to write file at ")) in Hmsg.
    apply (inj (String.app path)) in Hmsg.
    apply (inj (String.app ": ")) in Hmsg. split; [exact Hmsg|congruence].
Qed.

(** X13.  The paths are put into the message unquoted, so the message of a
    failed [rename] or [copyFile] does not determine them: moving
    [a to b] to [c] and moving [a] to [b to c] fail with the same error
    when the host's message is the same. *)
Theorem two_path_messages_are_ambiguous (FileSystem : Host H) (a b c : string)
    (h1 h1' h2 h2' : H) (e1 e2 : error) :
  (moveAsync FileSystem {[ "from" := VStr (a +:+ " to " +:+ b); "to" := VStr c ]} h1
     = (Rejected e1, h1') ->
   moveAsync FileSystem {[ "from" := VStr a; "to" := VStr (b +:+ " to " +:+ c) ]} h2
     = (Rejected e2, h2') ->
   message e1 = message e2 ->
   fst (fs.rename FileSystem (a +:+ " to " +:+ b) c h1)
     = fst (fs.rename FileSystem a (b +:+ " to " +:+ c) h2)) /\
  (copyAsync FileSystem {[ "from" := VStr (a +:+ " to " +:+ b); "to" := VStr c ]} h1
     = (Rejected e1, h1') ->
   copyAsync FileSystem {[ "from" := VStr a; "to" := VStr (b +:+ " to " +:+ c) ]} h2
     = (Rejected e2, h2') ->
   message e1 = message e2 ->
   fst (fs.copyFile FileSystem (a +:+ " to " +:+ b) c h1)
     = fst (fs.copyFile FileSystem a (b +:+ " to " +:+ c) h2)).
Proof.
  split; intros E1 E2 Hmsg;
    unfold fs.rename, fs.copyFile, try_catch, throw; rewrite E1, E2; cbn [fst];
    rewrite Hmsg, !append_assoc; reflexivity.
Qed.
End Messages.

Lemma host_message_recoverable_witness :
  exists e01 e02,
    hostFailure (TraceHost.host (Some (MkError "EIO" "disk full")))
      (OpAppendFile "/a" "x") [] = Some e01 /\
    hostFailure (TraceHost.host (Some (MkError "ENOSPC" "disk full")))
      (OpAppendFile "/a" "x") [TraceHost.Delete "/b"] = Some e02 /\
    message e01 = message e02 /\
    failsAtRead (TraceHost.host (Some (MkError "EIO" "disk full")))
      (OpAppendFile "/a" "x") []
    = failsAtRead (TraceHost.host (Some (MkError "ENOSPC" "disk full")))
        (OpAppendFile "/a" "x") [TraceHost.Delete "/b"].
Proof.
  eapply (host_message_recoverable
            (TraceHost.host (Some (MkError "EIO" "disk full")))
            (TraceHost.host (Some (MkError "ENOSPC" "disk full")))
            (OpAppendFile "/a" "x") [] _ [TraceHost.Delete "/b"] _ _ _).
  - vm_compute. reflexivity.
  - vm_compute. reflexivity.
  - reflexivity.
Defined.

Lemma two_path_messages_are_ambiguous_witness :
  fst (fs.rename (TraceHost.host (Some (MkError "EIO" "boom")))
         ("x" +:+ " to " +:+ "y") "z" [])
  = fst (fs.rename (TraceHost.host (Some (MkError "EIO" "boom")))
           "x" ("y" +:+ " to " +:+ "z") []).
Proof.
  destruct (two_path_messages_are_ambiguous
              (TraceHost.host (Some (MkError "EIO" "boom"))) "x" "y" "z"
              [] [TraceHost.Move {[ "from" := VStr "x to y"; "to" := VStr "z" ]}]
              [] [TraceHost.Move {[ "from" := VStr "x"; "to" := VStr "y to z" ]}]
              (MkError "EIO" "boom") (MkError "EIO" "boom")) as [Hrename _].
  apply Hrename; vm_compute; reflexivity.
Defined.

(** ** Appends that overlap *)

Section Overlap.
Context {H : Type} (FileSystem : Host H).

(** The split of [appendFile] at its first await is faithful: resuming
    right after the read is [appendFile]. *)
Lemma appendFile_resumes path data h :
  fs.appendFile FileSystem path data h
  = resumeAppend FileSystem path data (fst (fs.readFile FileSystem path None h))
      (snd (fs.readFile FileSystem path None h)).
Proof.
  rewrite appendFile_unfold. unfold resumeAppend, try_catch, throw.
  destruct (fs.readFile FileSystem path None h) as [[c|e] h1]; cbn [fst snd]; [|reflexivity].
  destruct (fs.writeFile FileSystem path (c +:+ data) None h1) as [[u|e] h2]; reflexivity.
Qed.

(** X14.  [appendFile] is not atomic.  On a host that reads back the UTF-8
    text it wrote, two appends of [a] and [b] that overlap on a readable
    file both succeed, and the file then reads as the old contents followed
    by [b] alone: the first append's data is lost, without an error. *)
Theorem overlapping_appends_lose_an_update (supported : value -> Prop)
    (path a b existing : string) (h : H) :
  ReadIsPure FileSystem -> ReadsBackWrites FileSystem supported ->
  OverwriteSucceeds FileSystem ->
  supported (fs.encodingOption FileSystem "utf8") ->
  fst (fs.readFile FileSystem path None h) = Fulfilled existing ->
  exists h',
    overlappingAppends FileSystem path a b h = ((Fulfilled tt, Fulfilled tt), h') /\
    fst (fs.readFile FileSystem path None h') = Fulfilled (existing +:+ b).
Proof.
  intros Hpure Hback Hover Hutf8 Hread.
  set (utf8 := ({[ "encoding" := fs.encodingOption FileSystem (fs.defaulted "utf8" None) ]}
                : obj)).
  apply readFile_fulfilled in Hread as Hhost. fold utf8 in Hhost.
  assert (Hsame : fs.readFile FileSystem path None h = (Fulfilled existing, h)).
  { rewrite readFile_unfold. fold utf8. pose proof (Hpure path utf8 h) as Hh.
    destruct (readAsStringAsync FileSystem path utf8 h) as [[c|e] h1];
      cbn [fst snd] in *; congruence. }
  destruct (Hover path (existing +:+ a) utf8 h existing Hhost) as [h1 Hwa].
  assert (Hra : fst (readAsStringAsync FileSystem path utf8 h1) = Fulfilled (existing +:+ a))
    by (eapply Hback; [exact Hutf8|exact Hwa]).
  destruct (Hover path (existing +:+ b) utf8 h1 _ Hra) as [h2 Hwb].
  exists h2. split.
  - unfold overlappingAppends. rewrite Hsame, Hsame.
    unfold resumeAppend, try_catch.
    rewrite (proj2 (writeFile_fulfilled FileSystem path (existing +:+ a) None h h1) Hwa).
    rewrite (proj2 (writeFile_fulfilled FileSystem path (existing +:+ b) None h1 h2) Hwb).
    reflexivity.
  - apply readFile_fulfilled. eapply Hback; [exact Hutf8|exact Hwb].
Qed.

End Overlap.

Lemma overlapping_appends_lose_an_update_witness :
  exists m',
    overlappingAppends MemHost.host "/log" "ab" "cd"
      (MemHost.MkMem {[ "/log" := MemHost.File ">" 0 ]} 1)
      = ((Fulfilled tt, Fulfilled tt), m') /\
    fst (fs.readFile MemHost.host "/log" None m') = Fulfilled ">cd".
Proof.
  apply (overlapping_appends_lose_an_update MemHost.host (fun _ => True) "/log" "ab" "cd" ">"
           (MemHost.MkMem {[ "/log" := MemHost.File ">" 0 ]} 1)
           MemHostLaws.read_is_pure MemHostLaws.reads_back_writes
           MemHostLaws.overwrite_succeeds I).
  vm_compute. reflexivity.
Defined.
